(** * The module lifecycle and economy engine of the MLN backend

    A shallow embedding of [mln/models/module.py]: the [Module] model, its
    yield calculator, the setup / teardown / harvest transitions, the click
    distributor and the arcade prize selector, followed by the properties
    proved about them. *)

From stdpp Require Import gmap list strings.
From Stdlib Require Import ZArith Lia.

Open Scope Z_scope.

(** ** Python values and exceptions *)

(** The exceptions that the methods of [Module] can let escape. *)
Inductive exn :=
| ValueError (msg : string)
| RuntimeError (msg : string)
| DoesNotExist          (* Model.objects.get / related object without a row *)
| IndexError            (* random.choice on an empty list *)
| TypeError             (* datetime - int *)
| AttributeError        (* attribute that the class does not define *)
| ZeroDivisionError
| InsufficientInventory (* the ledger refusing a removal *).

Inductive Result (A : Type) :=
| Ok (a : A)
| Err (e : exn).
Arguments Ok {A} a.
Arguments Err {A} e.

Definition is_ok {A} (r : Result A) : bool :=
  match r with Ok _ => true | Err _ => false end.

(** A value that is either a Python [int] or a [datetime.timedelta]
    (in microseconds): [_calc_yield_info] returns the [int] 0 on its early
    exits and a [timedelta] otherwise. *)
Inductive PyNum :=
| PInt (n : Z)
| PDelta (us : Z).

(** [datetime.timedelta._divide_and_round]: division rounded half to even. *)
Definition divide_and_round (a b : Z) : Z :=
  let q := a / b in
  let r := 2 * (a mod b) in
  let greater_than_half := if 0 <? b then b <? r else r <? b in
  if greater_than_half || ((r =? b) && (q mod 2 =? 1)) then q + 1 else q.

(** [timedelta / int]. *)
Definition td_truediv (us n : Z) : Z := divide_and_round us n.

(** [divmod] on two [int]s or two [timedelta]s: floor quotient and the
    remainder with the sign of the divisor. *)
Definition py_divmod (a b : Z) : Result (Z * Z) :=
  if b =? 0 then Err ZeroDivisionError else Ok (a / b, a mod b).

(** Truth value of a nullable boolean ([None] and [False] are falsy). *)
Definition truthy (b : option bool) : bool :=
  match b with Some true => true | _ => false end.

(** ** Data model *)

Inductive ModuleEditorType :=
| CONCERT_I_ARCADE | CONCERT_II_ARCADE | DELIVERY_ARCADE | DESTRUCTOID_ARCADE
| DR_INFERNO_ROBOT_SIM | FACTORY_GENERIC | FACTORY_NON_GENERIC | FRIEND_SHARE
| FRIENDLY_FELIX_CONCERT | GALLERY_GENERIC | GALLERY_NON_GENERIC | GENERIC
| GROUP_PERFORMANCE | HOP_ARCADE | LOOP_SHOPPE | NETWORKER_PIC | NETWORKER_TEXT
| NETWORKER_TRADE | PLASTIC_PELLET_INDUCTOR | ROCKET_GAME | SOUNDTRACK | STICKER
| STICKER_SHOPPE | TRADE | TRIO_PERFORMANCE.

Inductive SettingsClass :=
| ModuleSaveGeneric | ModuleSaveNetworkerPic | ModuleSaveNetworkerText
| ModuleSaveRocketGame | ModuleSaveSoundtrack | ModuleSaveSticker | ModuleSaveUGC
| ModuleSetupFriendShare | ModuleSetupGroupPerformance | ModuleSetupTrade
| ModuleSetupTrioPerformance | ModuleSaveConcertArcade | ModuleSaveDeliveryArcade
| ModuleSaveDestructoidArcade | ModuleSaveHopArcade.

Global Instance ModuleEditorType_eq_dec : EqDecision ModuleEditorType.
Proof. solve_decision. Defined.
Global Instance SettingsClass_eq_dec : EqDecision SettingsClass.
Proof. solve_decision. Defined.

(** The settings class registry at the end of the file. *)
Definition module_settings_classes (t : ModuleEditorType) : list SettingsClass :=
  match t with
  | CONCERT_I_ARCADE => [ModuleSaveConcertArcade]
  | CONCERT_II_ARCADE => [ModuleSaveConcertArcade]
  | DELIVERY_ARCADE => [ModuleSaveDeliveryArcade]
  | DESTRUCTOID_ARCADE => [ModuleSaveDestructoidArcade]
  | DR_INFERNO_ROBOT_SIM => [ModuleSaveDestructoidArcade]
  | FACTORY_GENERIC => [ModuleSaveGeneric; ModuleSaveUGC]
  | FACTORY_NON_GENERIC => [ModuleSaveUGC]
  | FRIEND_SHARE => [ModuleSaveGeneric; ModuleSetupFriendShare]
  | FRIENDLY_FELIX_CONCERT => [ModuleSaveConcertArcade]
  | GALLERY_GENERIC => [ModuleSaveGeneric; ModuleSaveUGC]
  | GALLERY_NON_GENERIC => [ModuleSaveUGC]
  | GENERIC => [ModuleSaveGeneric]
  | GROUP_PERFORMANCE => [ModuleSaveGeneric; ModuleSetupGroupPerformance]
  | HOP_ARCADE => [ModuleSaveHopArcade]
  | LOOP_SHOPPE => [ModuleSaveGeneric; ModuleSetupTrade]
  | NETWORKER_PIC => [ModuleSaveNetworkerPic]
  | NETWORKER_TEXT => [ModuleSaveGeneric; ModuleSaveNetworkerText]
  | NETWORKER_TRADE => [ModuleSaveGeneric; ModuleSetupTrade]
  | PLASTIC_PELLET_INDUCTOR => [ModuleSaveUGC]
  | ROCKET_GAME => [ModuleSaveSticker; ModuleSaveRocketGame]
  | SOUNDTRACK => [ModuleSaveGeneric; ModuleSaveSoundtrack]
  | STICKER => [ModuleSaveSticker]
  | STICKER_SHOPPE => [ModuleSaveGeneric; ModuleSetupTrade]
  | TRADE => [ModuleSaveGeneric; ModuleSetupTrade]
  | TRIO_PERFORMANCE => [ModuleSaveGeneric; ModuleSetupTrioPerformance]
  end.

(** Users, items, module rows and message templates are named by their
    primary keys. *)
Definition user_id : Type := Z.
Definition item_id : Type := Z.

(** A [Module] instance: the fields of the Django model.  Times are
    microseconds since the epoch. *)
Record Module := mkModule {
  pk : Z;
  item : item_id;
  owner : user_id;
  pos_x : option Z;
  pos_y : option Z;
  last_harvest_time : Z;
  clicks_since_last_harvest : Z;
  total_clicks : Z;
  is_setup : option bool
}.

Definition set_is_setup (v : option bool) (m : Module) : Module :=
  mkModule (pk m) (item m) (owner m) (pos_x m) (pos_y m) (last_harvest_time m)
           (clicks_since_last_harvest m) (total_clicks m) v.

Definition set_last_harvest_time (t : Z) (m : Module) : Module :=
  mkModule (pk m) (item m) (owner m) (pos_x m) (pos_y m) t
           (clicks_since_last_harvest m) (total_clicks m) (is_setup m).

Definition set_clicks_since_last_harvest (c : Z) (m : Module) : Module :=
  mkModule (pk m) (item m) (owner m) (pos_x m) (pos_y m) (last_harvest_time m)
           c (total_clicks m) (is_setup m).

Definition set_total_clicks (c : Z) (m : Module) : Module :=
  mkModule (pk m) (item m) (owner m) (pos_x m) (pos_y m) (last_harvest_time m)
           (clicks_since_last_harvest m) c (is_setup m).

(** *** Static configuration (the rows of [models/static.py] read here) *)

Record ModuleInfo := { editor_type : option ModuleEditorType }.

(** [ModuleSetupCost] and [ModuleExecutionCost] rows. *)
Record Cost := { cost_item : item_id; cost_qty : Z }.

Record ModuleHarvestYield := {
  yield_item_id : item_id;
  max_yield : Z;
  yield_per_day : Z;
  clicks_per_yield : Z
}.

(** [ModuleGuestYield] and [ModuleOwnerYield] rows. *)
Record ClickYield := { cy_item : item_id; cy_qty : Z; cy_probability : Z }.

Record ModuleMessage := { mm_message : Z; mm_probability : Z }.

(** The rows behind [self.guest_yields] in [select_arcade_prize]. *)
Record Prize := { prize_item : item_id; prize_qty : Z; success_rate : Z }.

(** The catalog: what each query of the file returns, in query order. *)
Record Catalog := {
  cat_info : item_id -> option ModuleInfo;
  cat_setup_cost : item_id -> list Cost;
  cat_harvest_yield : item_id -> option ModuleHarvestYield;
  cat_execution_cost : item_id -> list Cost;
  cat_guest_yield : item_id -> list ClickYield;
  cat_owner_yield : item_id -> list ClickYield;
  cat_message : item_id -> list ModuleMessage;
  guest_yields : Z -> list Prize
}.

(** *** Mutable state *)

Record Profile := { available_votes : Z; is_networker : bool }.

(** Modelled from the spec: [FriendshipStatus] of [models/dynamic.py] is not
    among the sources; the spec speaks of accepted friendships, [FRIEND]
    here, as opposed to any other status. *)
Inductive FriendshipStatus := FRIEND | PENDING | BLOCKED.

Global Instance FriendshipStatus_eq_dec : EqDecision FriendshipStatus.
Proof. solve_decision. Defined.

(** A [Friendship] row; the incoming friendships of a user are the rows
    that point to the user, the outgoing ones those that start there. *)
Record Friendship := {
  from_user : user_id;
  to_user : user_id;
  status : FriendshipStatus
}.

(** The [ModuleSetupTrade] settings row of a module. *)
Record SetupTrade := { give_item_id : item_id; give_qty : Z }.

Record SentMessage := { sm_template : Z; sm_sender : user_id; sm_recipient : user_id }.

(** The world a method runs in: the in-memory object [self] ([this]), the
    database tables it reads and writes, the messages handed to the messaging
    service, and the two sources of outside input, the clock behind [now()]
    and the generator behind [random]. *)
Record World := mkWorld {
  this : Module;
  rows : gmap Z Module;
  inventory : gmap (Z * Z) Z;
  profiles : gmap Z Profile;
  friendships : list Friendship;
  setup_trades : gmap Z SetupTrade;
  outbox : list SentMessage;
  clock : nat -> Z;
  ticks : nat;
  rand : nat -> Z;
  draws : nat
}.

Definition with_this (m : Module) (w : World) : World :=
  mkWorld m (rows w) (inventory w) (profiles w) (friendships w) (setup_trades w)
          (outbox w) (clock w) (ticks w) (rand w) (draws w).

Definition with_rows (r : gmap Z Module) (w : World) : World :=
  mkWorld (this w) r (inventory w) (profiles w) (friendships w) (setup_trades w)
          (outbox w) (clock w) (ticks w) (rand w) (draws w).

Definition with_inventory (i : gmap (Z * Z) Z) (w : World) : World :=
  mkWorld (this w) (rows w) i (profiles w) (friendships w) (setup_trades w)
          (outbox w) (clock w) (ticks w) (rand w) (draws w).

Definition with_profiles (p : gmap Z Profile) (w : World) : World :=
  mkWorld (this w) (rows w) (inventory w) p (friendships w) (setup_trades w)
          (outbox w) (clock w) (ticks w) (rand w) (draws w).

Definition with_outbox (o : list SentMessage) (w : World) : World :=
  mkWorld (this w) (rows w) (inventory w) (profiles w) (friendships w)
          (setup_trades w) o (clock w) (ticks w) (rand w) (draws w).

Definition with_ticks (n : nat) (w : World) : World :=
  mkWorld (this w) (rows w) (inventory w) (profiles w) (friendships w)
          (setup_trades w) (outbox w) (clock w) n (rand w) (draws w).

Definition with_draws (n : nat) (w : World) : World :=
  mkWorld (this w) (rows w) (inventory w) (profiles w) (friendships w)
          (setup_trades w) (outbox w) (clock w) (ticks w) (rand w) n.

(** ** The monad of methods

    A method reads and writes the world and either returns or raises.  An
    exception leaves the world as it was when it was raised: nothing in the
    file undoes earlier writes. *)
Definition M (A : Type) : Type := World -> Result A * World.

Definition ret {A} (a : A) : M A := fun w => (Ok a, w).
Definition raise {A} (e : exn) : M A := fun w => (Err e, w).
Definition bind {A B} (c : M A) (k : A -> M B) : M B :=
  fun w => match c w with
           | (Ok a, w') => k a w'
           | (Err e, w') => (Err e, w')
           end.
Definition get : M World := fun w => (Ok w, w).
Definition modify (f : World -> World) : M unit := fun w => (Ok tt, f w).
Definition lift {A} (r : Result A) : M A := fun w => (r, w).

Declare Scope py_scope.
Delimit Scope py_scope with py.
Notation "x <- c ;; k" := (bind c (fun x => k))
  (at level 100, c at next level, right associativity) : py_scope.
Notation "c ;;; k" := (bind c (fun _ => k))
  (at level 100, right associativity) : py_scope.
Open Scope py_scope.

(** [for x in l: body(x)]. *)
Fixpoint for_each {A} (body : A -> M unit) (l : list A) : M unit :=
  match l with
  | [] => ret tt
  | x :: l' => body x ;;; for_each body l'
  end.

Definition when (b : bool) (c : M unit) : M unit := if b then c else ret tt.

(** ** Collaborators *)

(** Modelled from the spec: the inventory ledger ([services/inventory.py]) is
    not among the sources.  It holds per-owner item quantity counts, [add]
    raises a count and [remove] fails if the quantity would go negative;
    each call is atomic.  An absent stack counts as quantity 0. *)
Definition qty_of (inv : gmap (Z * Z) Z) (u : user_id) (i : item_id) : Z :=
  default 0 (inv !! (u, i)).

Definition add_inv_item (u : user_id) (i : item_id) (qty : Z) : M unit :=
  modify (fun w =>
    with_inventory (<[(u, i) := qty_of (inventory w) u i + qty]> (inventory w)) w).

Definition remove_inv_item (u : user_id) (i : item_id) (qty : Z) : M unit :=
  fun w =>
    if qty_of (inventory w) u i - qty <? 0 then (Err InsufficientInventory, w)
    else (Ok tt,
          with_inventory (<[(u, i) := qty_of (inventory w) u i - qty]> (inventory w)) w).

(** Modelled from the spec: the messaging gateway ([services/message.py]) is
    not among the sources.  Sending is fire-and-forget: the message is handed
    over and nothing is returned. *)
Definition send_template (template : Z) (sender recipient : user_id) : M unit :=
  modify (fun w => with_outbox (outbox w ++ [Build_SentMessage template sender recipient]) w).

(** [django.utils.timezone.now()]: the next reading of the clock. *)
Definition now : M Z :=
  fun w => (Ok (clock w (ticks w)), with_ticks (S (ticks w)) w).

(** The next output of the random generator. *)
Definition next_random : M Z :=
  fun w => (Ok (rand w (draws w)), with_draws (S (draws w)) w).

(** The double [p / 100] of an integer percentage [0 < p < 100] is
    m / 2^(52 + j), where 2^(-j) <= p / 100 < 2^(1 - j) and the 53-bit
    significand m is p * 2^(52 + j) / 100 rounded half to even, as the
    division of two [int]s rounds. *)
Definition percent_exponent (p : Z) : Z := 7 - Z.log2 (p * 128 / 100).

Definition percent_significand (p : Z) : Z :=
  divide_and_round (p * 2 ^ (52 + percent_exponent p)) 100.

(** [draw < (probability / 100)] on doubles, for the draw n / 2^53: never
    below a quotient that is zero or negative, always below one that is at
    least 1.0, and otherwise compared with the rounded quotient. *)
Definition below_percent (n probability : Z) : bool :=
  if probability <=? 0 then false
  else if 100 <=? probability then true
  else n * 2 ^ (percent_exponent probability - 1) <? percent_significand probability.

(** [random.random() < (probability / 100)].  [random.random()] is n / 2^53
    for a 53-bit n. *)
Definition roll (probability : Z) : M bool :=
  n <- next_random ;;
  ret (below_percent (n mod 2 ^ 53) probability).

(** [random.randrange(n)]. *)
Definition randrange (n : Z) : M Z :=
  k <- next_random ;; ret (k mod n).

(** [random.choice(l)]: raises [IndexError] on an empty list. *)
Definition choice {A} (l : list A) : M A :=
  match l with
  | [] => raise IndexError
  | x :: _ =>
      k <- next_random ;;
      ret (nth (Z.to_nat (k mod Z.of_nat (length l))) l x)
  end.

(** Modelled from the spec: the constant [DAY] of [models/dynamic.py] is not
    among the sources; the spec divides elapsed time by one day over
    [yield_per_day].  One day, in microseconds. *)
Definition DAY : Z := 86400000000.

(** ** The methods of [Module] *)

Section Methods.

Variable cat : Catalog.

Definition self : M Module := fun w => (Ok (this w), w).
Definition update_self (f : Module -> Module) : M unit :=
  modify (fun w => with_this (f (this w)) w).

(** [u.profile]: the related row, or [RelatedObjectDoesNotExist]. *)
Definition profile_of (u : user_id) : M Profile :=
  fun w => match profiles w !! u with
           | Some p => (Ok p, w)
           | None => (Err DoesNotExist, w)
           end.

Definition get_info : M ModuleInfo :=
  fun w => match cat_info cat (item (this w)) with
           | Some i => (Ok i, w)
           | None => (Err DoesNotExist, w)
           end.

Definition has_rows {A} (l : list A) : bool :=
  match l with [] => false | _ => true end.

Definition is_setupable : M bool :=
  info <- get_info ;;
  m <- self ;;
  ret (bool_decide (editor_type info = Some TRADE)
       || has_rows (cat_setup_cost cat (item m))).

(** [super().save()]: write the object to its row. *)
Definition super_save : M unit :=
  modify (fun w => with_rows (<[pk (this w) := this w]> (rows w)) w).

Definition save : M unit :=
  setupable <- is_setupable ;;
  m <- self ;;
  when (negb setupable && bool_decide (is_setup m = Some false))
       (update_self (set_is_setup None)) ;;;
  super_save.

(** The two halves of the accrual: whole units and what is left over. *)
Definition time_part (time_since_harvest : Z) (yield_info : ModuleHarvestYield)
  : Result (Z * Z) :=
  if yield_per_day yield_info =? 0 then Ok (0, time_since_harvest)
  else py_divmod time_since_harvest (td_truediv DAY (yield_per_day yield_info)).

Definition click_part (clicks : Z) (yield_info : ModuleHarvestYield) : Z * Z :=
  if clicks_per_yield yield_info =? 0 then (0, clicks)
  else (clicks / clicks_per_yield yield_info, clicks mod clicks_per_yield yield_info).

Definition _calc_yield_info : M (Z * PyNum * Z) :=
  setupable <- is_setupable ;;
  m <- self ;;
  if setupable && negb (truthy (is_setup m)) then ret (0, PInt 0, 0)
  else
    match cat_harvest_yield cat (item m) with
    | None => ret (0, PInt 0, 0)
    | Some yield_info =>
        t <- now ;;
        let time_since_harvest := t - last_harvest_time m in
        tp <- lift (time_part time_since_harvest yield_info) ;;
        let '(time_yield, time_remainder) := tp in
        let '(click_yield, click_remainder) :=
          click_part (clicks_since_last_harvest m) yield_info in
        let final_yield := Z.min (time_yield + click_yield) (max_yield yield_info) in
        ret (final_yield, PDelta time_remainder, click_remainder)
    end.

Definition is_plain_user (w : World) (u : user_id) : bool :=
  match profiles w !! u with
  | Some p => negb (is_networker p)
  | None => false
  end.

Definition _get_random_friend : M user_id :=
  w <- get ;;
  let o := owner (this w) in
  let incoming :=
    filter (fun f => to_user f = o /\ is_plain_user w (from_user f) = true
                     /\ status f = FRIEND) (friendships w) in
  let outgoing :=
    filter (fun f => from_user f = o /\ is_plain_user w (to_user f) = true
                     /\ status f = FRIEND) (friendships w) in
  let incoming_friends := map from_user incoming in
  let outgoing_friends := map to_user outgoing in
  let friends := incoming_friends ++ outgoing_friends in
  choice friends.

Definition calc_yield_qty : M Z :=
  r <- _calc_yield_info ;; ret (fst (fst r)).

Definition get_yield_item_id : M item_id :=
  m <- self ;;
  match cat_harvest_yield cat (item m) with
  | Some yield_info => ret (yield_item_id yield_info)
  | None => raise DoesNotExist
  end.

Definition is_clickable (m : Module) : bool :=
  match is_setup m with
  | None => true
  | Some b => b
  end.

(** [datetime - x]: defined for a [timedelta], a [TypeError] for an [int]. *)
Definition datetime_sub (t : Z) (x : PyNum) : Result Z :=
  match x with
  | PDelta d => Ok (t - d)
  | PInt _ => Err TypeError
  end.

Definition harvest : M unit :=
  r <- _calc_yield_info ;;
  let '(harvest_qty, time_remainder, click_remainder) := r in
  m <- self ;;
  yield_item <- get_yield_item_id ;;
  add_inv_item (owner m) yield_item harvest_qty ;;;
  t <- now ;;
  lht <- lift (datetime_sub t time_remainder) ;;
  update_self (set_last_harvest_time lht) ;;;
  update_self (set_clicks_since_last_harvest click_remainder) ;;;
  update_self (set_is_setup (Some false)) ;;;
  save.

Definition get_settings_classes : M (list SettingsClass) :=
  info <- get_info ;;
  match editor_type info with
  | None => ret []
  | Some t => ret (module_settings_classes t)
  end.

(** [ModuleSetupTrade.objects.get(module=self)]. *)
Definition get_setup_trade : M SetupTrade :=
  fun w => match setup_trades w !! pk (this w) with
           | Some t => (Ok t, w)
           | None => (Err DoesNotExist, w)
           end.

(** [self._needs_setup()]: the class defines no attribute of that name (the
    setup-requirement test is [is_setupable]), so the lookup raises. *)
Definition _needs_setup : M bool := raise AttributeError.

(** The part of [setup] after its two guards: pay the cost, mark the module
    set up and restart the harvest clock. *)
Definition setup_pay : M unit :=
  m <- self ;;
  classes <- get_settings_classes ;;
  (if bool_decide (ModuleSetupTrade ∈ classes) then
     trade <- get_setup_trade ;;
     remove_inv_item (owner m) (give_item_id trade) (give_qty trade)
   else
     for_each (fun c => remove_inv_item (owner m) (cost_item c) (cost_qty c))
              (cat_setup_cost cat (item m))) ;;;
  update_self (set_is_setup (Some true)) ;;;
  t <- now ;;
  update_self (set_last_harvest_time t) ;;;
  save.

Definition setup : M unit :=
  m <- self ;;
  if truthy (is_setup m) then ret tt
  else
    needed <- _needs_setup ;;
    if negb needed then raise (RuntimeError "Module is not setupable.")
    else setup_pay.

Definition teardown : M unit :=
  m <- self ;;
  if negb (truthy (is_setup m)) then ret tt
  else
    classes <- get_settings_classes ;;
    (if bool_decide (ModuleSetupTrade ∈ classes) then
       trade <- get_setup_trade ;;
       add_inv_item (owner m) (give_item_id trade) (give_qty trade)
     else
       for_each (fun c => add_inv_item (owner m) (cost_item c) (cost_qty c))
                (cat_setup_cost cat (item m))) ;;;
    update_self (set_is_setup (Some false)) ;;;
    save.

Definition set_available_votes (u : user_id) (v : Z) : M unit :=
  modify (fun w =>
    match profiles w !! u with
    | Some p => with_profiles (<[u := Build_Profile v (is_networker p)]> (profiles w)) w
    | None => w
    end).

Definition _update_clicks (clicker : user_id) : M unit :=
  m <- self ;;
  if bool_decide (clicker = owner m) then raise (ValueError "Can't vote on own module")
  else
    p <- profile_of clicker ;;
    if available_votes p <=? 0 then raise (RuntimeError "Voter has no votes left")
    else if negb (is_clickable m) then raise (RuntimeError "This module is not set up")
    else
      set_available_votes clicker (available_votes p - 1) ;;;
      update_self (fun m => set_clicks_since_last_harvest (clicks_since_last_harvest m + 1) m) ;;;
      update_self (fun m => set_total_clicks (total_clicks m + 1) m) ;;;
      save.

Definition _distribute_items (clicker : user_id) : M (option ClickYield) :=
  m <- self ;;
  for_each (fun c => remove_inv_item clicker (cost_item c) (cost_qty c))
           (cat_execution_cost cat (item m)) ;;;
  for_each (fun g => hit <- roll (cy_probability g) ;;
                     when hit (add_inv_item clicker (cy_item g) (cy_qty g)))
           (cat_guest_yield cat (item m)) ;;;
  for_each (fun o => hit <- roll (cy_probability o) ;;
                     when hit (add_inv_item (owner m) (cy_item o) (cy_qty o)))
           (cat_owner_yield cat (item m)) ;;;
  for_each (fun fm => hit <- roll (mm_probability fm) ;;
                      when hit (random_friend <- _get_random_friend ;;
                                send_template (mm_message fm) (owner m) random_friend))
           (cat_message cat (item m)) ;;;
  ret (last (cat_guest_yield cat (item m))).

Definition click (clicker : user_id) : M (option ClickYield) :=
  _update_clicks clicker ;;;
  guest_yield <- _distribute_items clicker ;;
  m <- self ;;
  (if truthy (is_setup m) then
     p <- profile_of (owner m) ;;
     when (negb (is_networker p))
          (update_self (set_is_setup (Some false)) ;;; save)
   else ret tt) ;;;
  ret guest_yield.

(** The loop of [select_arcade_prize], with the running [sum]. *)
Fixpoint walk_prizes (user : user_id) (chance sum : Z) (prizes : list Prize) : M Prize :=
  match prizes with
  | [] => raise (RuntimeError "Should have chosen a prize but didn't for some reason")
  | prize :: rest =>
      let sum := sum + success_rate prize in
      if chance <? sum then
        add_inv_item user (prize_item prize) (prize_qty prize) ;;; ret prize
      else walk_prizes user chance sum rest
  end.

Definition select_arcade_prize (user : user_id) : M Prize :=
  chance <- randrange 100 ;;
  m <- self ;;
  walk_prizes user chance 0 (guest_yields cat (pk m)).

(** [Module.objects.create(...)]: a new object with the field defaults of the
    model ([last_harvest_time] now, both counters 0, [is_setup] False), saved. *)
Definition create (id : Z) (it : item_id) (o : user_id) (x y : option Z) : M unit :=
  t <- now ;;
  modify (with_this (mkModule id it o x y t 0 0 (Some false))) ;;;
  save.

End Methods.

(** ** Vocabulary of the properties *)

(** Sum of the success rates of a list of prizes. *)
Fixpoint cumulative (l : list Prize) : Z :=
  match l with
  | [] => 0
  | p :: l' => success_rate p + cumulative l'
  end.

(** [p] is the first prize of [pre ++ p :: post] whose cumulative weight
    exceeds [chance]: every earlier running total is at most [chance]. *)
Definition first_exceeding (chance : Z) (pre : list Prize) (p : Prize) : Prop :=
  (forall k, (k < length pre)%nat -> cumulative (take (S k) pre) <= chance)
  /\ chance < cumulative pre + success_rate p.

(** No running total of [l] exceeds [chance]. *)
Definition none_exceeding (chance : Z) (l : list Prize) : Prop :=
  forall k, (k < length l)%nat -> cumulative (take (S k) l) <= chance.

(** The draw that the next [random.randrange(100)] yields. *)
Definition next_chance (w : World) : Z := rand w (draws w) mod 100.

(** Crediting [qty] of [i] to [u], as a function on worlds. *)
Definition credited (u : user_id) (i : item_id) (qty : Z) (w : World) : World :=
  with_inventory (<[(u, i) := qty_of (inventory w) u i + qty]> (inventory w)) w.

(** An arcade module whose prize table has the given weights (prize [k] is
    item [k], one piece), and a world whose generator yields [draw]. *)
Definition arcade_catalog (weights : list Z) : Catalog := {|
  cat_info := fun _ => Some {| editor_type := Some HOP_ARCADE |};
  cat_setup_cost := fun _ => [];
  cat_harvest_yield := fun _ => None;
  cat_execution_cost := fun _ => [];
  cat_guest_yield := fun _ => [];
  cat_owner_yield := fun _ => [];
  cat_message := fun _ => [];
  guest_yields := fun _ =>
    imap (fun k s => {| prize_item := Z.of_nat (S k); prize_qty := 1; success_rate := s |})
         weights
|}.

Definition arcade_world (draw : Z) : World :=
  mkWorld (mkModule 1 10 100 (Some 0) (Some 0) 0 0 0 None)
          ∅ ∅ ∅ [] ∅ [] (fun _ => 0) 0%nat (fun _ => draw) 0%nat.

(** The whole units of yield accrued by elapsed time and by clicks, as the
    calculator names them. *)
Definition time_yield (time_since_harvest : Z) (yield_info : ModuleHarvestYield) : Z :=
  if yield_per_day yield_info =? 0 then 0
  else time_since_harvest / td_truediv DAY (yield_per_day yield_info).

Definition click_yield (clicks : Z) (yield_info : ModuleHarvestYield) : Z :=
  if clicks_per_yield yield_info =? 0 then 0
  else clicks / clicks_per_yield yield_info.

(** The setup gate of the calculator: the item has a setup requirement and the
    module is not set up. *)
Definition setupable (cat : Catalog) (m : Module) (info : ModuleInfo) : bool :=
  bool_decide (editor_type info = Some TRADE) || has_rows (cat_setup_cost cat (item m)).

Definition setup_pending (cat : Catalog) (m : Module) (info : ModuleInfo) : bool :=
  setupable cat m info && negb (truthy (is_setup m)).

(** What [save] makes of the object, and the world after a [save]. *)
Definition normalized (cat : Catalog) (info : ModuleInfo) (m : Module) : Module :=
  if negb (setupable cat m info) && bool_decide (is_setup m = Some false)
  then set_is_setup None m else m.

Definition saved (cat : Catalog) (info : ModuleInfo) (w : World) : World :=
  let m := normalized cat info (this w) in
  with_rows (<[pk m := m]> (rows w)) (with_this m w).

(** *** The setup-state invariant *)

(** The catalog item of [m] has no setup requirement ([is_setupable] returns
    [False]). *)
Definition no_setup_requirement (cat : Catalog) (m : Module) : Prop :=
  exists info, cat_info cat (item m) = Some info /\ setupable cat m info = false.

(** A module without setup requirement is in the not-applicable state. *)
Definition setup_state_ok (cat : Catalog) (m : Module) : Prop :=
  no_setup_requirement cat m -> is_setup m = None.

(** The invariant holds of the object in memory and of every stored row. *)
Definition invariant (cat : Catalog) (w : World) : Prop :=
  setup_state_ok cat (this w)
  /\ forall k row, rows w !! k = Some row -> setup_state_ok cat row.

(** The persisting operations. *)
Inductive operation :=
| Create (id : Z) (it : item_id) (o : user_id) (x y : option Z)
| Setup
| Teardown
| Harvest
| Click (clicker : user_id).

(** The world an operation leaves behind, whether it returns or raises. *)
Definition run (cat : Catalog) (op : operation) (w : World) : World :=
  match op with
  | Create id it o x y => snd (create cat id it o x y w)
  | Setup => snd (setup cat w)
  | Teardown => snd (teardown cat w)
  | Harvest => snd (harvest cat w)
  | Click clicker => snd (click cat clicker w)
  end.

(** A computation that touches neither the object nor the module table. *)
Definition frames {A} (c : M A) : Prop :=
  forall w, this (snd (c w)) = this w /\ rows (snd (c w)) = rows w.

(** A computation that keeps the invariant, returning or raising. *)
Definition preserves (cat : Catalog) {A} (c : M A) : Prop :=
  forall w, invariant cat w -> invariant cat (snd (c w)).

(** *** The ledger seen from the loops *)

(** What the cost loops of [setup] and [_distribute_items] do to an
    inventory: remove each cost in turn, stopping at the first refusal. *)
Fixpoint pay (u : user_id) (costs : list Cost) (inv : gmap (Z * Z) Z)
  : Result unit * gmap (Z * Z) Z :=
  match costs with
  | [] => (Ok tt, inv)
  | c :: rest =>
      if qty_of inv u (cost_item c) - cost_qty c <? 0 then (Err InsufficientInventory, inv)
      else pay u rest (<[(u, cost_item c) := qty_of inv u (cost_item c) - cost_qty c]> inv)
  end.

(** What the refund loop of [teardown] does to an inventory. *)
Fixpoint refund (u : user_id) (costs : list Cost) (inv : gmap (Z * Z) Z)
  : gmap (Z * Z) Z :=
  match costs with
  | [] => inv
  | c :: rest =>
      refund u rest (<[(u, cost_item c) := qty_of inv u (cost_item c) + cost_qty c]> inv)
  end.

(** How much of item [i] of user [u'] a list of costs charged to [u] takes. *)
Fixpoint spent (u : user_id) (costs : list Cost) (u' : user_id) (i : item_id) : Z :=
  match costs with
  | [] => 0
  | c :: rest =>
      (if bool_decide ((u, cost_item c) = (u', i)) then cost_qty c else 0)
      + spent u rest u' i
  end.

(** The setup cost of the module in either variant: the single trade cost of
    its [ModuleSetupTrade] row when its editor type maps to that settings
    class, the [ModuleSetupCost] rows of its item otherwise. *)
Definition setup_costs (cat : Catalog) (w : World) : Result (list Cost) :=
  match cat_info cat (item (this w)) with
  | None => Err DoesNotExist
  | Some info =>
      let classes :=
        match editor_type info with
        | None => []
        | Some t => module_settings_classes t
        end in
      if bool_decide (ModuleSetupTrade ∈ classes) then
        match setup_trades w !! pk (this w) with
        | Some trade =>
            Ok [ {| cost_item := give_item_id trade; cost_qty := give_qty trade |} ]
        | None => Err DoesNotExist
        end
      else Ok (cat_setup_cost cat (item (this w)))
  end.

(** The friends [_get_random_friend] chooses from. *)
Definition eligible_friends (w : World) : list user_id :=
  let o := owner (this w) in
  map from_user
      (filter (fun f => to_user f = o /\ is_plain_user w (from_user f) = true
                        /\ status f = FRIEND) (friendships w))
  ++ map to_user
      (filter (fun f => from_user f = o /\ is_plain_user w (to_user f) = true
                        /\ status f = FRIEND) (friendships w)).

(** A full rollback of a click: votes, click counters and inventories as
    before it. *)
Definition rolled_back (w w' : World) : Prop :=
  profiles w' = profiles w
  /\ clicks_since_last_harvest (this w') = clicks_since_last_harvest (this w)
  /\ total_clicks (this w') = total_clicks (this w)
  /\ inventory w' = inventory w.

(** *** Sample data

    Item 10 is a module that needs two pieces of item 7 to be set up, yields
    item 50 (twice a day and once per click, at most 10) and costs a visitor
    one piece of item 8 per click.  Item 11 is a module without setup
    requirement and without yield that sends message 3 to a friend of the
    owner on every click.  Item 12 is a trade module, set up by giving what
    the module's trade settings name. *)
Definition sample_catalog : Catalog := {|
  cat_info := fun i =>
    if i =? 10 then Some {| editor_type := Some GENERIC |}
    else if i =? 11 then Some {| editor_type := Some GENERIC |}
    else if i =? 12 then Some {| editor_type := Some TRADE |}
    else None;
  cat_setup_cost := fun i =>
    if i =? 10 then [ {| cost_item := 7; cost_qty := 2 |} ] else [];
  cat_harvest_yield := fun i =>
    if i =? 10 then
      Some {| yield_item_id := 50; max_yield := 10; yield_per_day := 2; clicks_per_yield := 1 |}
    else None;
  cat_execution_cost := fun i =>
    if i =? 10 then [ {| cost_item := 8; cost_qty := 1 |} ] else [];
  cat_guest_yield := fun _ => [];
  cat_owner_yield := fun _ => [];
  cat_message := fun i =>
    if i =? 11 then [ {| mm_message := 3; mm_probability := 100 |} ] else [];
  guest_yields := fun _ => []
|}.

(** User 100 owns the module and three pieces of item 7; user 200 is a
    visitor with five votes and an empty inventory; nobody has friends.  The
    module was last harvested at time 0 and it is now noon of that day. *)
Definition sample_world (it : item_id) (state : option bool) (clicks : Z) : World :=
  mkWorld (mkModule 1 it 100 (Some 0) (Some 0) 0 clicks clicks state)
          ∅
          {[ (100, 7) := 3 ]}
          {[ 100 := Build_Profile 3 false; 200 := Build_Profile 5 false ]}
          []
          {[ 1 := {| give_item_id := 7; give_qty := 2 |} ]}
          []
          (fun _ => 43200000000) 0%nat
          (fun _ => 0) 0%nat.

(** The world after the bookkeeping of a click by a visitor with profile [p]:
    one vote less for the visitor, one click more on both counters. *)
Definition voted (clicker : user_id) (p : Profile) (w : World) : World :=
  with_this
    (set_total_clicks (total_clicks (this w) + 1)
       (set_clicks_since_last_harvest (clicks_since_last_harvest (this w) + 1) (this w)))
    (with_profiles
       (<[clicker := Build_Profile (available_votes p - 1) (is_networker p)]> (profiles w))
       w).

(** Two worlds with the same module object, profiles, friendships and sent
    messages. *)
Definition same_people (w w' : World) : Prop :=
  this w' = this w /\ rows w' = rows w /\ profiles w' = profiles w
  /\ friendships w' = friendships w /\ outbox w' = outbox w.

(** ** Vocabulary of the further properties *)

(** A computation that leaves an observation [f] of the world as it was,
    returning or raising. *)
Definition keeps {T A} (f : World -> T) (c : M A) : Prop :=
  forall w, f (snd (c w)) = f w.

(** What names and places a module: key, item, owner and grid position. *)
Definition identity (m : Module) : Z * item_id * user_id * option Z * option Z :=
  (pk m, item m, owner m, pos_x m, pos_y m).

(** The guards of [_update_clicks] let the visitor through: the visitor is
    not the owner, has a profile with votes left, and the module is
    clickable. *)
Definition admitted (clicker : user_id) (w : World) : bool :=
  negb (bool_decide (clicker = owner (this w)))
  && match profiles w !! clicker with
     | Some p => (0 <? available_votes p) && is_clickable (this w)
     | None => false
     end.

(** The votes a user has left, if the user has a profile. *)
Definition votes_of (w : World) (u : user_id) : option Z :=
  available_votes <$> profiles w !! u.

(** Two worlds with the same module object, stored rows, profiles and
    friendships. *)
Definition same_cast (w w' : World) : Prop :=
  this w' = this w /\ rows w' = rows w /\ profiles w' = profiles w
  /\ friendships w' = friendships w.

(** The part of [click] that follows the bookkeeping: the distribution and
    the consumption of the setup. *)
Definition click_rewards (cat : Catalog) (clicker : user_id) : M (option ClickYield) :=
  guest_yield <- _distribute_items cat clicker ;;
  m <- self ;;
  (if truthy (is_setup m) then
     p <- profile_of (owner m) ;;
     when (negb (is_networker p))
          (update_self (set_is_setup (Some false)) ;;; save cat)
   else ret tt) ;;;
  ret guest_yield.

(** Messages from [o] to one of the friends [friends], with a template of
    one of the entries [msgs]. *)
Definition friend_messages (o : user_id) (friends : list user_id)
    (msgs : list ModuleMessage) (sent : list SentMessage) : Prop :=
  Forall (fun m => sm_sender m = o /\ sm_recipient m ∈ friends
                   /\ sm_template m ∈ map mm_message msgs) sent.

(** What [setup], [teardown] and [harvest] leave alone. *)
Definition lifecycle_untouched (w w' : World) : Prop :=
  total_clicks (this w') = total_clicks (this w)
  /\ profiles w' = profiles w
  /\ friendships w' = friendships w
  /\ setup_trades w' = setup_trades w
  /\ outbox w' = outbox w.

(** The last step of [click]: a set-up module of an owner who is not a
    networker is taken down. *)
Definition consume_setup (cat : Catalog) : M unit :=
  m <- self ;;
  if truthy (is_setup m) then
    p <- profile_of (owner m) ;;
    when (negb (is_networker p))
         (update_self (set_is_setup (Some false)) ;;; save cat)
  else ret tt.

(** The setup state a successful click leaves behind. *)
Definition after_click_setup (cat : Catalog) (info : ModuleInfo) (w : World) : option bool :=
  if truthy (is_setup (this w)) && is_plain_user w (owner (this w)) then
    if setupable cat (this w) info then Some false else None
  else is_setup (this w).

(** The sample world with the module set up and two pieces of item 8 in the
    visitor's inventory. *)
Definition sample_visit_world : World :=
  with_inventory (<[(200, 8) := 2]> (inventory (sample_world 10 (Some true) 0)))
                 (sample_world 10 (Some true) 0).

(** What the calculator carries over: the time and the clicks that did not
    make a whole unit. *)
Definition time_left (time_since_harvest : Z) (yield_info : ModuleHarvestYield) : Z :=
  if yield_per_day yield_info =? 0 then time_since_harvest
  else time_since_harvest mod td_truediv DAY (yield_per_day yield_info).

Definition clicks_left (clicks : Z) (yield_info : ModuleHarvestYield) : Z :=
  if clicks_per_yield yield_info =? 0 then clicks
  else clicks mod clicks_per_yield yield_info.

(** The quantity the calculator arrives at when it gets to the accrual. *)
Definition accrued (time_since_harvest clicks : Z) (yield_info : ModuleHarvestYield) : Z :=
  Z.min (time_yield time_since_harvest yield_info + click_yield clicks yield_info)
        (max_yield yield_info).

(** Item 20 is a module without setup requirement that yields item 50, twice
    a day and once per three clicks, at most 10; user 100 owns one, last
    harvested at time 0, and it is noon of that day. *)
Definition orchard_catalog : Catalog := {|
  cat_info := fun i => if i =? 20 then Some {| editor_type := Some GENERIC |} else None;
  cat_setup_cost := fun _ => [];
  cat_harvest_yield := fun i =>
    if i =? 20 then
      Some {| yield_item_id := 50; max_yield := 10; yield_per_day := 2; clicks_per_yield := 3 |}
    else None;
  cat_execution_cost := fun _ => [];
  cat_guest_yield := fun _ => [];
  cat_owner_yield := fun _ => [];
  cat_message := fun _ => [];
  guest_yields := fun _ => []
|}.

Definition orchard_world (clicks : Z) : World :=
  mkWorld (mkModule 2 20 100 (Some 1) (Some 0) 0 clicks clicks None)
          ∅ ∅ {[ 100 := Build_Profile 3 false ]} [] ∅ []
          (fun _ => 43200000000) 0%nat (fun _ => 0) 0%nat.

(** ** The admin inlines ([mln/admin/__init__.py]) *)

Module Admin.

(** [ItemType] is declared in [models/static.py]; of its members
    [get_item_info_inlines] tells apart [BLUEPRINT], [MODULE] and all the
    others, kept here as [OTHER]. *)
Inductive ItemType := BLUEPRINT | MODULE | OTHER (member : nat).

(** The model classes shown inline with an item. *)
Inductive Inline :=
| BlueprintInfo | BlueprintRequirement | ModuleInfo | ModuleYieldInfo
| ModuleSetupCost | ModuleExecutionCost | ArcadePrize.

#[global] Instance Inline_eq_dec : EqDecision Inline.
Proof. solve_decision. Defined.

(** What the function reads of an item: its type and, through
    [obj.module_info], the editor type and the executable flag. *)
Record ModuleInfoRow := {
  editor_type : option ModuleEditorType;
  is_executable : bool
}.

Record ItemInfo := {
  type : ItemType;
  module_info : option ModuleInfoRow
}.

(** [get_item_info_inlines(obj)], run to its end: the classes it yields, or
    the exception of [obj.module_info] for a module item without that row. *)
Definition get_item_info_inlines (obj : ItemInfo) : Result (list Inline) :=
  match type obj with
  | BLUEPRINT => Ok [BlueprintInfo; BlueprintRequirement]
  | MODULE =>
      match module_info obj with
      | None => Err DoesNotExist
      | Some info =>
          Ok ([ModuleInfo; ModuleYieldInfo]
              ++ (if bool_decide
                       (editor_type info
                        ∉ [Some LOOP_SHOPPE; Some NETWORKER_TRADE; Some STICKER_SHOPPE;
                           Some TRADE])
                  then [ModuleSetupCost] else [])
              ++ (if is_executable info then [ModuleExecutionCost] else [])
              ++ (if bool_decide
                       (editor_type info
                        ∈ [Some CONCERT_I_ARCADE; Some CONCERT_II_ARCADE;
                           Some DELIVERY_ARCADE; Some DESTRUCTOID_ARCADE;
                           Some DR_INFERNO_ROBOT_SIM; Some HOP_ARCADE])
                  then [ArcadePrize] else []))
      end
  | OTHER _ => Ok []
  end.

(** The inlines registered for items with [make_inline(ItemInfo, ...)]. *)
Definition item_info_inlines : list Inline :=
  [ModuleInfo; ArcadePrize; ModuleExecutionCost; ModuleSetupCost; ModuleYieldInfo;
   BlueprintInfo; BlueprintRequirement].

(** [get_settings_inlines(obj)] for a module [obj], run to its end. *)
Definition get_settings_inlines (cat : Catalog) : M (list SettingsClass) :=
  inlines <- get_settings_classes cat ;;
  if bool_decide (inlines = [ModuleSaveConcertArcade]) then
    ret [ModuleSaveConcertArcade; ModuleSaveSoundtrack]
  else ret inlines.

(** The keys of [module_settings_classes]. *)
Definition editor_types : list ModuleEditorType :=
  [CONCERT_I_ARCADE; CONCERT_II_ARCADE; DELIVERY_ARCADE; DESTRUCTOID_ARCADE;
   DR_INFERNO_ROBOT_SIM; FACTORY_GENERIC; FACTORY_NON_GENERIC; FRIEND_SHARE;
   FRIENDLY_FELIX_CONCERT; GALLERY_GENERIC; GALLERY_NON_GENERIC; GENERIC;
   GROUP_PERFORMANCE; HOP_ARCADE; LOOP_SHOPPE; NETWORKER_PIC; NETWORKER_TEXT;
   NETWORKER_TRADE; PLASTIC_PELLET_INDUCTOR; ROCKET_GAME; SOUNDTRACK; STICKER;
   STICKER_SHOPPE; TRADE; TRIO_PERFORMANCE].

(** The set [settings]: every class of every entry of the registry, the
    inlines registered for modules. *)
Definition settings : list SettingsClass :=
  concat (map module_settings_classes editor_types).

(** The settings classes of an editor type, none for no editor type. *)
Definition classes_of (t : option ModuleEditorType) : list SettingsClass :=
  match t with
  | Some t => module_settings_classes t
  | None => []
  end.

(** The settings classes of the arcade games. *)
Definition arcade_classes : list SettingsClass :=
  [ModuleSaveConcertArcade; ModuleSaveDeliveryArcade; ModuleSaveDestructoidArcade;
   ModuleSaveHopArcade].

End Admin.

(** ** The friend trigger migration ([mln/migrations/0024_friend_trigger.py]) *)

Module Migration0024.

(** What the migration reads of a [NetworkerFriendshipCondition]: its fields
    and, through [condition.source], the text of its source row, which may be
    missing. *)
Record NetworkerFriendshipCondition := {
  networker : Z;
  condition : option Z;
  success_body : Z;
  failure_body : Z;
  source : option string
}.

Record MessageTemplate := {
  id : Z;
  mt_networker : Z;
  mt_body : Z;
  mt_source : string
}.

(** A [NetworkerFriendTrigger] row; [messagetemplate_ptr] is its primary
    key. *)
Record NetworkerFriendTrigger := {
  messagetemplate_ptr : Z;
  required_item : option Z;
  accept : bool
}.

(** The tables the migration touches, rows in insertion order, and the
    sequence that hands out the keys of new message templates. *)
Record Tables := {
  conditions : list NetworkerFriendshipCondition;
  templates : list MessageTemplate;
  template_seq : Z;
  triggers : list NetworkerFriendTrigger
}.

Inductive error :=
| RelatedObjectDoesNotExist   (* condition.source without a source row *)
| IntegrityError.             (* a primary key that is already taken *)

(** An error of the data step comes with the tables as the failing statement
    found them, an error of the whole migration with the tables it leaves. *)
Inductive outcome :=
| Done (db : Tables)
| Failed (e : error) (db : Tables).

(** [MessageTemplate.objects.create(networker=..., body=..., source=...)]. *)
Definition create_template (n b : Z) (s : string) (db : Tables)
  : option MessageTemplate * Tables :=
  let t := {| id := template_seq db; mt_networker := n; mt_body := b; mt_source := s |} in
  if bool_decide (template_seq db ∈ map id (templates db)) then (None, db)
  else (Some t,
        {| conditions := conditions db; templates := templates db ++ [t];
           template_seq := template_seq db + 1; triggers := triggers db |}).

(** [NetworkerFriendTrigger.objects.create(messagetemplate_ptr=..., ...)]. *)
Definition create_trigger (t : NetworkerFriendTrigger) (db : Tables) : option Tables :=
  if bool_decide (messagetemplate_ptr t ∈ map messagetemplate_ptr (triggers db)) then None
  else Some {| conditions := conditions db; templates := templates db;
               template_seq := template_seq db; triggers := triggers db ++ [t] |}.

(** The body of the loop of [migrate_NFC_to_NFT] for one condition. *)
Definition migrate_condition (c : NetworkerFriendshipCondition) (db : Tables) : outcome :=
  match source c with
  | None => Failed RelatedObjectDoesNotExist db
  | Some s =>
      match create_template (networker c) (success_body c) s db with
      | (None, db) => Failed IntegrityError db
      | (Some message_success, db) =>
          match create_trigger {| messagetemplate_ptr := id message_success;
                                  required_item := condition c;
                                  accept := true |} db with
          | None => Failed IntegrityError db
          | Some db =>
              match create_template (networker c) (failure_body c) s db with
              | (None, db) => Failed IntegrityError db
              | (Some message_failure, db) =>
                  match create_trigger {| messagetemplate_ptr := id message_failure;
                                          required_item := None;
                                          accept := false |} db with
                  | None => Failed IntegrityError db
                  | Some db => Done db
                  end
              end
          end
      end
  end.

Fixpoint migrate_conditions (cs : list NetworkerFriendshipCondition) (db : Tables)
  : outcome :=
  match cs with
  | [] => Done db
  | c :: cs' =>
      match migrate_condition c db with
      | Done db' => migrate_conditions cs' db'
      | Failed e db' => Failed e db'
      end
  end.

Definition migrate_NFC_to_NFT (db : Tables) : outcome :=
  migrate_conditions (conditions db) db.

(** The three operations of the migration: create the empty trigger table,
    run [migrate_NFC_to_NFT], delete the condition tables.  A migration is
    atomic unless it says otherwise, and this one does not: when the data
    step raises, the transaction is rolled back, and the error comes with
    the tables as they were before the migration. *)
Definition operations (db : Tables) : outcome :=
  match migrate_NFC_to_NFT
          {| conditions := conditions db; templates := templates db;
             template_seq := template_seq db; triggers := [] |} with
  | Done db' =>
      Done {| conditions := []; templates := templates db';
              template_seq := template_seq db'; triggers := triggers db' |}
  | Failed e _ => Failed e db
  end.

(** The key sequence is ahead of every key in use. *)
Definition fresh (db : Tables) : Prop :=
  Forall (fun t => id t < template_seq db) (templates db).

(** Read the conditions back from the templates and triggers that the
    migration wrote: each pair of an accepting and a refusing trigger, with
    the templates they point to, gives one condition. *)
Definition template_of (ts : list MessageTemplate) (k : Z) : option MessageTemplate :=
  head (filter (fun t => id t = k) ts).

Fixpoint recover (ts : list MessageTemplate) (trs : list NetworkerFriendTrigger)
  : list NetworkerFriendshipCondition :=
  match trs with
  | yes :: no :: rest =>
      match template_of ts (messagetemplate_ptr yes),
            template_of ts (messagetemplate_ptr no) with
      | Some s, Some f =>
          {| networker := mt_networker s; condition := required_item yes;
             success_body := mt_body s; failure_body := mt_body f;
             source := Some (mt_source s) |} :: recover ts rest
      | _, _ => []
      end
  | _ => []
  end.

(** The rows the migration writes for a list of conditions when the first
    free template key is [k]: two templates and two triggers per condition. *)
Fixpoint new_templates (k : Z) (cs : list NetworkerFriendshipCondition)
  : list MessageTemplate :=
  match cs with
  | [] => []
  | c :: cs' =>
      {| id := k; mt_networker := networker c; mt_body := success_body c;
         mt_source := default EmptyString (source c) |}
      :: {| id := k + 1; mt_networker := networker c; mt_body := failure_body c;
            mt_source := default EmptyString (source c) |}
      :: new_templates (k + 2) cs'
  end.

Fixpoint new_triggers (k : Z) (cs : list NetworkerFriendshipCondition)
  : list NetworkerFriendTrigger :=
  match cs with
  | [] => []
  | c :: cs' =>
      {| messagetemplate_ptr := k; required_item := condition c; accept := true |}
      :: {| messagetemplate_ptr := k + 1; required_item := None; accept := false |}
      :: new_triggers (k + 2) cs'
  end.

(** What the loop relies on: the key sequence is ahead of the templates and
    of the triggers written so far. *)
Definition ahead (db : Tables) : Prop :=
  fresh db /\ Forall (fun tr => messagetemplate_ptr tr < template_seq db) (triggers db).

(** Sample tables: two conditions of networker 5, one template in place. *)
Definition sample : Tables := {|
  conditions :=
    [ {| networker := 5; condition := Some 70; success_body := 11; failure_body := 12;
         source := Some "wiki" |};
      {| networker := 5; condition := None; success_body := 13; failure_body := 14;
         source := Some "video" |} ];
  templates := [ {| id := 1; mt_networker := 4; mt_body := 9; mt_source := "old" |} ];
  template_seq := 2;
  triggers := []
|}.

End Migration0024.
(** ** Stepping through the monad *)

Lemma bind_ok {A B} (c : M A) (k : A -> M B) w a w' :
  c w = (Ok a, w') -> bind c k w = k a w'.
Proof. intros H. unfold bind. now rewrite H. Qed.

Lemma bind_err {A B} (c : M A) (k : A -> M B) w e w' :
  c w = (Err e, w') -> bind c k w = (Err e, w').
Proof. intros H. unfold bind. now rewrite H. Qed.

(** ** The methods, equation by equation *)

Lemma is_setupable_eq cat w :
  is_setupable cat w
  = match cat_info cat (item (this w)) with
    | Some info => (Ok (setupable cat (this w) info), w)
    | None => (Err DoesNotExist, w)
    end.
Proof.
  unfold is_setupable, get_info, bind. now destruct (cat_info cat (item (this w))).
Qed.

Lemma save_eq cat w :
  save cat w
  = match cat_info cat (item (this w)) with
    | Some info => (Ok tt, saved cat info w)
    | None => (Err DoesNotExist, w)
    end.
Proof.
  unfold save, bind. rewrite is_setupable_eq.
  destruct (cat_info cat (item (this w))) as [info|]; [|reflexivity].
  unfold saved, normalized. cbn.
  now destruct (negb (setupable cat (this w) info) && bool_decide (is_setup (this w) = Some false)).
Qed.

Lemma calc_yield_info_eq cat w :
  _calc_yield_info cat w
  = match cat_info cat (item (this w)) with
    | None => (Err DoesNotExist, w)
    | Some info =>
        if setup_pending cat (this w) info then (Ok (0, PInt 0, 0), w)
        else
          match cat_harvest_yield cat (item (this w)) with
          | None => (Ok (0, PInt 0, 0), w)
          | Some yi =>
              let w1 := with_ticks (S (ticks w)) w in
              match time_part (clock w (ticks w) - last_harvest_time (this w)) yi with
              | Ok (ty, tr) =>
                  let cp := click_part (clicks_since_last_harvest (this w)) yi in
                  (Ok (Z.min (ty + fst cp) (max_yield yi), PDelta tr, snd cp), w1)
              | Err e => (Err e, w1)
              end
          end
    end.
Proof.
  unfold _calc_yield_info, bind. rewrite is_setupable_eq.
  destruct (cat_info cat (item (this w))) as [info|]; [|reflexivity].
  unfold setup_pending. cbn.
  destruct (setupable cat (this w) info && negb (truthy (is_setup (this w)))); [reflexivity|].
  destruct (cat_harvest_yield cat (item (this w))) as [yi|]; [|reflexivity].
  cbn. destruct (time_part _ yi) as [[ty tr]|e]; [|reflexivity].
  cbn. now destruct (click_part _ yi).
Qed.

(** ** The arcade prize selector *)

Lemma cumulative_take_0 l : cumulative (take 0 l) = 0.
Proof. now rewrite take_0. Qed.

Lemma cumulative_take_S k q l :
  cumulative (take (S k) (q :: l)) = success_rate q + cumulative (take k l).
Proof. reflexivity. Qed.

Section Arcade.

Variable user : user_id.
Variable chance : Z.

Lemma walk_prizes_win pre p post : forall sum w,
  (forall k, (k < length pre)%nat -> sum + cumulative (take (S k) pre) <= chance) ->
  chance < sum + cumulative pre + success_rate p ->
  walk_prizes user chance sum (pre ++ p :: post) w
  = (Ok p, credited user (prize_item p) (prize_qty p) w).
Proof.
  induction pre as [|q pre IH]; intros sum w Hpre Hp; cbn [app walk_prizes].
  - cbn in Hp. rewrite (proj2 (Z.ltb_lt _ _)) by lia.
    reflexivity.
  - pose proof (Hpre 0%nat ltac:(cbn; lia)) as H0.
    rewrite cumulative_take_S, cumulative_take_0 in H0.
    rewrite (proj2 (Z.ltb_ge _ _)) by lia.
    apply IH.
    + intros k Hk. specialize (Hpre (S k) ltac:(cbn; lia)).
      rewrite cumulative_take_S in Hpre. lia.
    + cbn [cumulative] in Hp. lia.
Qed.

Lemma walk_prizes_none l : forall sum w,
  (forall k, (k < length l)%nat -> sum + cumulative (take (S k) l) <= chance) ->
  walk_prizes user chance sum l w
  = (Err (RuntimeError "Should have chosen a prize but didn't for some reason"), w).
Proof.
  induction l as [|q l IH]; intros sum w Hl; cbn [walk_prizes].
  - reflexivity.
  - pose proof (Hl 0%nat ltac:(cbn; lia)) as H0.
    rewrite cumulative_take_S, cumulative_take_0 in H0.
    rewrite (proj2 (Z.ltb_ge _ _)) by lia.
    apply IH. intros k Hk. specialize (Hl (S k) ltac:(cbn; lia)).
    rewrite cumulative_take_S in Hl. lia.
Qed.

(** Every table either has a first prize whose running total exceeds the
    draw, or none of its running totals does. *)
Lemma prize_table_cases l : forall sum,
  (exists pre p post, l = pre ++ p :: post
     /\ (forall k, (k < length pre)%nat -> sum + cumulative (take (S k) pre) <= chance)
     /\ chance < sum + cumulative pre + success_rate p)
  \/ (forall k, (k < length l)%nat -> sum + cumulative (take (S k) l) <= chance).
Proof.
  induction l as [|q l IH]; intros sum.
  - right. cbn. lia.
  - destruct (Z_lt_le_dec chance (sum + success_rate q)) as [Hlt|Hle].
    + left. exists [], q, l. cbn. split; [reflexivity | split; [lia | lia]].
    + destruct (IH (sum + success_rate q)) as [(pre & p & post & -> & Hpre & Hp)|Hnone].
      * left. exists (q :: pre), p, post. split; [reflexivity|]. split.
        -- intros [|k] Hk; rewrite cumulative_take_S.
           ++ rewrite cumulative_take_0. lia.
           ++ specialize (Hpre k ltac:(cbn in Hk; lia)). lia.
        -- cbn [cumulative]. lia.
      * right. intros [|k] Hk; rewrite cumulative_take_S.
        -- rewrite cumulative_take_0. lia.
        -- specialize (Hnone k ltac:(cbn in Hk; lia)). lia.
Qed.

End Arcade.

Lemma select_arcade_prize_unfold cat user w :
  select_arcade_prize cat user w
  = walk_prizes user (next_chance w) 0 (guest_yields cat (pk (this w)))
                (with_draws (S (draws w)) w).
Proof. reflexivity. Qed.

Lemma walk_prizes_frame user chance l : forall sum w,
  let out := walk_prizes user chance sum l w in
  match fst out with
  | Ok p => p ∈ l /\ snd out = credited user (prize_item p) (prize_qty p) w
  | Err _ => snd out = w
  end.
Proof.
  induction l as [|q l IH]; intros sum w; cbn [walk_prizes].
  - reflexivity.
  - destruct (chance <? sum + success_rate q).
    + cbn. split; [left | reflexivity].
    + specialize (IH (sum + success_rate q) w). cbn zeta in IH.
      destruct (fst (walk_prizes user chance (sum + success_rate q) l w)).
      * destruct IH as [Hin Hw]. split; [now right | exact Hw].
      * exact IH.
Qed.

(** C8: [select_arcade_prize] draws an integer in [0,100) and walks the prize
    list in order, adding up the success rates; the first prize whose running
    total strictly exceeds the draw is credited to the user and returned, and
    when no running total exceeds the draw a [RuntimeError] is raised.  With
    weights [30, 70] the draw 29 selects prize 1 and the draws 30 and 99
    select prize 2; with weights summing to 80 the draw 85 raises. *)
Theorem select_arcade_prize_first_exceeding :
  (forall cat user w,
     let chance := next_chance w in
     let prizes := guest_yields cat (pk (this w)) in
     let w1 := with_draws (S (draws w)) w in
     0 <= chance < 100
     /\ ((exists pre p post,
            prizes = pre ++ p :: post
            /\ first_exceeding chance pre p
            /\ select_arcade_prize cat user w
               = (Ok p, credited user (prize_item p) (prize_qty p) w1))
         \/ (none_exceeding chance prizes
             /\ select_arcade_prize cat user w
                = (Err (RuntimeError "Should have chosen a prize but didn't for some reason"),
                   w1))))
  /\ (let run weights draw := select_arcade_prize (arcade_catalog weights) 7 (arcade_world draw) in
      fst (run [30; 70] 29) = Ok {| prize_item := 1; prize_qty := 1; success_rate := 30 |}
      /\ qty_of (inventory (snd (run [30; 70] 29))) 7 1 = 1
      /\ fst (run [30; 70] 30) = Ok {| prize_item := 2; prize_qty := 1; success_rate := 70 |}
      /\ fst (run [30; 70] 99) = Ok {| prize_item := 2; prize_qty := 1; success_rate := 70 |}
      /\ qty_of (inventory (snd (run [30; 70] 99))) 7 2 = 1
      /\ fst (run [30; 50] 85)
         = Err (RuntimeError "Should have chosen a prize but didn't for some reason")
      /\ inventory (snd (run [30; 50] 85)) = ∅).
Proof.
  split.
  - intros cat user w chance prizes w1. split.
    + unfold chance, next_chance. apply Z.mod_pos_bound. lia.
    + rewrite select_arcade_prize_unfold. fold chance prizes w1.
      destruct (prize_table_cases chance prizes 0)
        as [(pre & p & post & Heq & Hpre & Hp)|Hnone].
      * left. exists pre, p, post. split; [exact Heq|]. split.
        -- split; [intros k Hk; specialize (Hpre k Hk); lia | lia].
        -- rewrite Heq. apply walk_prizes_win; assumption.
      * right. split.
        -- intros k Hk. specialize (Hnone k Hk). lia.
        -- apply walk_prizes_none. exact Hnone.
  - vm_compute. repeat split; reflexivity.
Qed.

(** C10: [select_arcade_prize] leaves the module as it was, the object in
    memory and its stored row alike: position, [last_harvest_time],
    [clicks_since_last_harvest], [total_clicks] and [is_setup] keep their
    values, and so do profiles, friendships, settings and sent messages.  Its
    only effect on the state is the credit of the winning prize's item and
    quantity to the given user's inventory; when it raises, not even that. *)
Theorem select_arcade_prize_frame cat user w :
  let out := select_arcade_prize cat user w in
  let w' := snd out in
  this w' = this w
  /\ (pos_x (this w') = pos_x (this w) /\ pos_y (this w') = pos_y (this w)
      /\ last_harvest_time (this w') = last_harvest_time (this w)
      /\ clicks_since_last_harvest (this w') = clicks_since_last_harvest (this w)
      /\ total_clicks (this w') = total_clicks (this w)
      /\ is_setup (this w') = is_setup (this w))
  /\ rows w' = rows w
  /\ profiles w' = profiles w
  /\ friendships w' = friendships w
  /\ setup_trades w' = setup_trades w
  /\ outbox w' = outbox w
  /\ match fst out with
     | Ok p =>
         p ∈ guest_yields cat (pk (this w))
         /\ inventory w'
            = <[(user, prize_item p) := qty_of (inventory w) user (prize_item p) + prize_qty p]>
                (inventory w)
     | Err _ => inventory w' = inventory w
     end.
Proof.
  intros out w'. subst w' out. rewrite select_arcade_prize_unfold.
  pose proof (walk_prizes_frame user (next_chance w) (guest_yields cat (pk (this w))) 0
                (with_draws (S (draws w)) w)) as H.
  cbn zeta in H.
  destruct (fst (walk_prizes user (next_chance w) 0 (guest_yields cat (pk (this w)))
                   (with_draws (S (draws w)) w))) as [p|e].
  - destruct H as [Hin ->]. cbn. repeat split; try reflexivity. exact Hin.
  - rewrite H. cbn. repeat split; reflexivity.
Qed.

(** ** Clicking *)

(** C9: [click] with the module's own owner as the visitor always fails with
    the self-interaction error ([ValueError]) and changes nothing: the world
    after the call is the world before it, so the owner's vote allowance,
    [clicks_since_last_harvest], [total_clicks] and every inventory keep their
    values. *)
Theorem click_own_module_rejected cat w :
  click cat (owner (this w)) w = (Err (ValueError "Can't vote on own module"), w).
Proof.
  unfold click, _update_clicks, bind, self. cbn.
  rewrite bool_decide_eq_true_2 by reflexivity. reflexivity.
Qed.

(** ** The yield calculator *)

Lemma divide_and_round_pos a b : 0 < a -> 0 < b < 2 * a -> 0 < divide_and_round a b.
Proof.
  intros Ha Hb. unfold divide_and_round.
  rewrite (proj2 (Z.ltb_lt 0 b)) by lia.
  destruct (Z_le_gt_dec b a) as [Hle|Hgt].
  - assert (0 < a / b) by (apply Z.div_str_pos; lia).
    destruct (_ || _); lia.
  - rewrite Z.div_small, Z.mod_small by lia.
    rewrite (proj2 (Z.ltb_lt b (2 * a))) by lia. cbn. lia.
Qed.

Lemma day_fraction_pos n : 0 < n < 172800000000 -> 0 < td_truediv DAY n.
Proof.
  intros Hn. apply divide_and_round_pos; unfold DAY; lia.
Qed.

Lemma time_part_yield since yi q r :
  time_part since yi = Ok (q, r) -> q = time_yield since yi.
Proof.
  unfold time_part, time_yield, py_divmod.
  destruct (yield_per_day yi =? 0); [congruence|].
  destruct (td_truediv DAY (yield_per_day yi) =? 0); congruence.
Qed.

Lemma time_part_ok since yi :
  0 <= yield_per_day yi < 172800000000 ->
  exists r, time_part since yi = Ok (time_yield since yi, r).
Proof.
  intros Hn. unfold time_part, time_yield, py_divmod.
  destruct (Z.eqb_spec (yield_per_day yi) 0) as [_|Hne]; [eauto|].
  pose proof (day_fraction_pos (yield_per_day yi) ltac:(lia)) as Hpos.
  rewrite (proj2 (Z.eqb_neq _ 0)) by lia. eauto.
Qed.

Lemma click_part_yield clicks yi : fst (click_part clicks yi) = click_yield clicks yi.
Proof.
  unfold click_part, click_yield. now destruct (clicks_per_yield yi =? 0).
Qed.

(** C1: for a yield-rate configuration with non-negative fields, the yield
    quantity that [_calc_yield_info] returns is
    min(time_yield + click_yield, max_yield) whenever the accrual is computed,
    and 0 when the setup gate stops it before; either way it never exceeds
    [max_yield].  The calculator does return, for every module with a catalog
    entry and every rate below 172800000000 per day (the rates for which
    a day divided by the rate is not rounded to a zero duration). *)
Theorem calc_yield_info_capped cat w yield_info :
  cat_harvest_yield cat (item (this w)) = Some yield_info ->
  0 <= yield_per_day yield_info ->
  0 <= clicks_per_yield yield_info ->
  0 <= max_yield yield_info ->
  let total :=
    Z.min (time_yield (clock w (ticks w) - last_harvest_time (this w)) yield_info
           + click_yield (clicks_since_last_harvest (this w)) yield_info)
          (max_yield yield_info) in
  (forall y tr cr w',
     _calc_yield_info cat w = (Ok (y, tr, cr), w') ->
     y <= max_yield yield_info
     /\ exists info,
          cat_info cat (item (this w)) = Some info
          /\ y = if setup_pending cat (this w) info then 0 else total)
  /\ (forall info,
        cat_info cat (item (this w)) = Some info ->
        yield_per_day yield_info < 172800000000 ->
        exists tr cr w',
          _calc_yield_info cat w
          = (Ok (if setup_pending cat (this w) info then 0 else total, tr, cr), w')).
Proof.
  intros Hcfg Hypd Hcpy Hmax total.
  rewrite calc_yield_info_eq, Hcfg. split.
  - intros y tr cr w'.
    destruct (cat_info cat (item (this w))) as [info|]; [|discriminate].
    destruct (setup_pending cat (this w) info) eqn:Hgate.
    + intros [= <- _ _ _]. split; [lia|]. exists info. now rewrite Hgate.
    + cbn zeta.
      destruct (time_part _ yield_info) as [[ty r]|e] eqn:Htp; [|discriminate].
      apply time_part_yield in Htp. rewrite click_part_yield.
      intros [= <- _ _ _]. subst ty. split; [apply Z.le_min_r|].
      exists info. now rewrite Hgate.
  - intros info -> Hbound.
    destruct (setup_pending cat (this w) info); [eauto|].
    destruct (time_part_ok (clock w (ticks w) - last_harvest_time (this w)) yield_info
                ltac:(lia)) as [r ->].
    cbn zeta. rewrite click_part_yield. eauto.
Qed.

(** The gated module of the sample data: the calculator returns 0 although
    six units have accrued, one by time and five by clicks. *)
Lemma calc_yield_gated_counterexample :
  fst (_calc_yield_info sample_catalog (sample_world 10 (Some false) 5))
  = Ok (0, PInt 0, 0)
  /\ Z.min (time_yield (43200000000 - 0)
                       {| yield_item_id := 50; max_yield := 10;
                          yield_per_day := 2; clicks_per_yield := 1 |}
            + click_yield 5 {| yield_item_id := 50; max_yield := 10;
                               yield_per_day := 2; clicks_per_yield := 1 |})
           10 = 6.
Proof. split; reflexivity. Qed.

Lemma calc_yield_info_capped_witness :
  exists tr cr w',
    _calc_yield_info sample_catalog (sample_world 10 (Some true) 5)
    = (Ok (6, tr, cr), w').
Proof.
  destruct (calc_yield_info_capped sample_catalog (sample_world 10 (Some true) 5)
              {| yield_item_id := 50; max_yield := 10;
                 yield_per_day := 2; clicks_per_yield := 1 |})
    as [_ H]; [reflexivity | cbn; lia | cbn; lia | cbn; lia |].
  apply (H {| editor_type := Some GENERIC |}); [reflexivity | cbn; lia].
Defined.

(** ** The setup-state invariant *)

Lemma frames_ret {A} (a : A) : frames (ret a).
Proof. now intros w. Qed.

Lemma frames_raise {A} e : frames (@raise A e).
Proof. now intros w. Qed.

Lemma frames_lift {A} (r : Result A) : frames (lift r).
Proof. now intros w. Qed.

Lemma frames_bind {A B} (c : M A) (k : A -> M B) :
  frames c -> (forall a, frames (k a)) -> frames (bind c k).
Proof.
  intros Hc Hk w. unfold bind. specialize (Hc w).
  destruct (c w) as [[a|e] w1]; cbn in *; [|exact Hc].
  destruct (Hk a w1) as [-> ->]. exact Hc.
Qed.

Lemma frames_when b c : frames c -> frames (when b c).
Proof. destruct b; [trivial | intros _; apply frames_ret]. Qed.

Lemma frames_for_each {A} (body : A -> M unit) l :
  (forall x, frames (body x)) -> frames (for_each body l).
Proof.
  intros H. induction l as [|x l IH]; cbn [for_each].
  - apply frames_ret.
  - apply frames_bind; [apply H | intros _; exact IH].
Qed.

Lemma frames_get : frames get.
Proof. now intros w. Qed.

Lemma frames_self : frames self.
Proof. now intros w. Qed.

Lemma frames_now : frames now.
Proof. now intros w. Qed.

Lemma frames_next_random : frames next_random.
Proof. now intros w. Qed.

Lemma frames_add_inv_item u i q : frames (add_inv_item u i q).
Proof. now intros w. Qed.

Lemma frames_remove_inv_item u i q : frames (remove_inv_item u i q).
Proof.
  intros w. unfold remove_inv_item. now destruct (_ <? 0).
Qed.

Lemma frames_send_template t s r : frames (send_template t s r).
Proof. now intros w. Qed.

Lemma frames_profile_of u : frames (profile_of u).
Proof. intros w. unfold profile_of. now destruct (profiles w !! u). Qed.

Lemma frames_set_available_votes u v : frames (set_available_votes u v).
Proof.
  intros w. unfold set_available_votes, modify. cbn. now destruct (profiles w !! u).
Qed.

Lemma frames_get_info cat : frames (get_info cat).
Proof. intros w. unfold get_info. now destruct (cat_info cat (item (this w))). Qed.

Lemma frames_get_setup_trade : frames get_setup_trade.
Proof. intros w. unfold get_setup_trade. now destruct (setup_trades w !! _). Qed.

Lemma frames_choice {A} (l : list A) : frames (choice l).
Proof.
  destruct l; cbn [choice]; [apply frames_raise|].
  apply frames_bind; [apply frames_next_random | intros; apply frames_ret].
Qed.

Create HintDb frames.
#[local] Hint Resolve frames_ret frames_raise frames_lift frames_when frames_for_each
  frames_get frames_self frames_now frames_next_random frames_add_inv_item
  frames_remove_inv_item frames_send_template frames_profile_of
  frames_set_available_votes frames_get_info frames_get_setup_trade frames_choice
  : frames.

(** Walk a computation built from binds, conditionals and framing steps. *)
Ltac frame_step :=
  match goal with
  | |- frames (bind _ _) => apply frames_bind; [|intros ?]
  | |- frames (for_each _ _) => apply frames_for_each; intros ?
  | |- frames (when _ _) => apply frames_when
  | |- frames (if ?b then _ else _) => destruct b
  | |- frames (match ?x with _ => _ end) => destruct x
  | |- frames (let '(_, _) := ?x in _) => destruct x
  | |- forall _, frames _ => intros ?
  | |- frames _ => solve [auto with frames]
  end.
Ltac frame := repeat frame_step.

Lemma frames_roll p : frames (roll p).
Proof. unfold roll. frame. Qed.

#[local] Hint Resolve frames_roll : frames.

Lemma frames_randrange n : frames (randrange n).
Proof. unfold randrange. frame. Qed.

Lemma frames_is_setupable cat : frames (is_setupable cat).
Proof. unfold is_setupable. frame. Qed.

#[local] Hint Resolve frames_is_setupable : frames.

Lemma frames_calc_yield_info cat : frames (_calc_yield_info cat).
Proof. unfold _calc_yield_info. frame. Qed.

Lemma frames_get_yield_item_id cat : frames (get_yield_item_id cat).
Proof. unfold get_yield_item_id. frame. Qed.

Lemma frames_get_settings_classes cat : frames (get_settings_classes cat).
Proof. unfold get_settings_classes. frame. Qed.

Lemma frames_get_random_friend : frames _get_random_friend.
Proof. unfold _get_random_friend. frame. Qed.

#[local] Hint Resolve frames_get_random_friend : frames.

Lemma frames_distribute_items cat clicker : frames (_distribute_items cat clicker).
Proof. unfold _distribute_items. frame. Qed.


#[local] Hint Resolve frames_calc_yield_info frames_get_yield_item_id
  frames_get_settings_classes frames_distribute_items frames_randrange : frames.

Section Preservation.

Variable cat : Catalog.

Lemma frames_preserves {A} (c : M A) : frames c -> preserves cat c.
Proof.
  intros Hc w [Hthis Hrows]. destruct (Hc w) as [Ht Hr].
  split; [now rewrite Ht | now rewrite Hr].
Qed.

Lemma preserves_bind {A B} (c : M A) (k : A -> M B) :
  preserves cat c -> (forall a, preserves cat (k a)) -> preserves cat (bind c k).
Proof.
  intros Hc Hk w Hw. unfold bind. specialize (Hc w Hw).
  destruct (c w) as [[a|e] w1]; cbn in *; [|exact Hc].
  now apply Hk.
Qed.

Lemma preserves_update_self f :
  (forall m, item (f m) = item m /\ is_setup (f m) = is_setup m) ->
  preserves cat (update_self f).
Proof.
  intros Hf w [Hthis Hrows]. split; [|exact Hrows]. cbn.
  destruct (Hf (this w)) as [Hi Hs]. intros (info & Hinfo & Hno).
  rewrite Hs. apply Hthis. exists info.
  unfold setupable in *. now rewrite <- Hi.
Qed.

(** The hook in [save]: whatever is stored satisfies the invariant, provided
    the object did, or was marked [False] just before. *)
Lemma save_invariant w :
  (forall k row, rows w !! k = Some row -> setup_state_ok cat row) ->
  setup_state_ok cat (this w) \/ is_setup (this w) = Some false ->
  invariant cat (snd (save cat w)).
Proof.
  intros Hrows Hthis. rewrite save_eq.
  destruct (cat_info cat (item (this w))) as [info|] eqn:Hinfo; cbn [snd].
  - assert (Hnorm : setup_state_ok cat (normalized cat info (this w))).
    { intros (info' & Hinfo' & Hno). unfold normalized in *.
      destruct (negb (setupable cat (this w) info)
                && bool_decide (is_setup (this w) = Some false)) eqn:Hc;
        [reflexivity|].
      assert (info' = info) by congruence. subst info'.
      rewrite Hno in Hc. cbn in Hc. apply bool_decide_eq_false in Hc.
      destruct Hthis as [Hok|Hf]; [|contradiction].
      apply Hok. now exists info. }
    split; [exact Hnorm|]. intros k row. unfold saved. cbn.
    rewrite lookup_insert. case_decide; [now intros [= <-] | apply Hrows].
  - split; [|exact Hrows]. destruct Hthis as [Hok|Hf]; [exact Hok|].
    intros (info & Hinfo' & _). congruence.
Qed.

Lemma preserves_save : preserves cat (save cat).
Proof. intros w [Hthis Hrows]. apply save_invariant; auto. Qed.

Lemma preserves_mark_save :
  preserves cat (update_self (set_is_setup (Some false)) ;;; save cat).
Proof.
  intros w [_ Hrows]. unfold bind, update_self, modify. cbn.
  apply save_invariant; [exact Hrows | now right].
Qed.

Lemma preserves_when b c : preserves cat c -> preserves cat (when b c).
Proof. destruct b; [trivial | intros _ w Hw; exact Hw]. Qed.

End Preservation.

#[local] Hint Resolve preserves_save preserves_mark_save : frames.

(** Walk an operation: framing steps keep the invariant, and so do the
    counter updates and every save. *)
Ltac keep_step :=
  match goal with
  | |- preserves _ (update_self (set_is_setup (Some false)) ;;; save _) =>
      apply preserves_mark_save
  | |- preserves _ (save _) => apply preserves_save
  | |- preserves _ (update_self _) => apply preserves_update_self; intros ?; now split
  | |- preserves _ (bind _ _) => apply preserves_bind; [|intros ?]
  | |- preserves _ (when _ _) => apply preserves_when
  | |- preserves _ (if ?b then _ else _) => destruct b
  | |- preserves _ (match ?x with _ => _ end) => destruct x
  | |- preserves _ _ => solve [apply frames_preserves; frame]
  end.
Ltac keep := repeat keep_step.

Section Operations.

Variable cat : Catalog.

Lemma preserves_harvest : preserves cat (harvest cat).
Proof. unfold harvest. keep. Qed.

Lemma preserves_setup : preserves cat (setup cat).
Proof.
  intros w Hw. unfold setup, bind, self, _needs_setup, raise. cbn.
  now destruct (truthy (is_setup (this w))).
Qed.

Lemma preserves_teardown : preserves cat (teardown cat).
Proof. unfold teardown. keep. Qed.

Lemma preserves_update_clicks clicker : preserves cat (_update_clicks cat clicker).
Proof. unfold _update_clicks. keep. Qed.

Lemma preserves_click clicker : preserves cat (click cat clicker).
Proof.
  unfold click. keep. apply preserves_update_clicks.
Qed.

Lemma preserves_create id it o x y : preserves cat (create cat id it o x y).
Proof.
  intros w [_ Hrows]. unfold create, bind, now, modify. cbn.
  apply save_invariant; [exact Hrows | now right].
Qed.

End Operations.

(** ** Harvesting *)

Lemma harvest_eq cat w :
  harvest cat w
  = match cat_info cat (item (this w)) with
    | None => (Err DoesNotExist, w)
    | Some info =>
        match cat_harvest_yield cat (item (this w)) with
        | None => (Err DoesNotExist, w)
        | Some yi =>
            if setup_pending cat (this w) info then
              (Err TypeError,
               with_ticks (S (ticks w))
                          (credited (owner (this w)) (yield_item_id yi) 0 w))
            else
              match time_part (clock w (ticks w) - last_harvest_time (this w)) yi with
              | Err e => (Err e, with_ticks (S (ticks w)) w)
              | Ok (ty, tr) =>
                  let cp := click_part (clicks_since_last_harvest (this w)) yi in
                  let qty := Z.min (ty + fst cp) (max_yield yi) in
                  let m :=
                    set_is_setup (Some false)
                      (set_clicks_since_last_harvest (snd cp)
                         (set_last_harvest_time (clock w (S (ticks w)) - tr) (this w))) in
                  (Ok tt,
                   saved cat info
                     (with_this m
                        (with_ticks (S (S (ticks w)))
                           (credited (owner (this w)) (yield_item_id yi) qty w))))
              end
        end
    end.
Proof.
  unfold harvest, bind at 1. rewrite calc_yield_info_eq.
  destruct (cat_info cat (item (this w))) as [info|] eqn:Hinfo; [|reflexivity].
  destruct (setup_pending cat (this w) info).
  - unfold bind, get_yield_item_id, self. cbn.
    destruct (cat_harvest_yield cat (item (this w))) as [yi|]; reflexivity.
  - destruct (cat_harvest_yield cat (item (this w))) as [yi|] eqn:Hyi.
    + cbn zeta.
      destruct (time_part (clock w (ticks w) - last_harvest_time (this w)) yi)
        as [[ty tr]|e]; [|reflexivity].
      unfold bind at 1, self at 1. cbn [fst snd].
      unfold bind at 1, get_yield_item_id at 1, bind at 1, self at 1. cbn [this with_ticks item].
      rewrite Hyi. unfold ret at 1.
      unfold bind, add_inv_item, modify, now, lift, update_self, datetime_sub. cbn.
      rewrite save_eq. cbn. rewrite Hinfo. reflexivity.
    + unfold bind, get_yield_item_id, self. cbn. now rewrite Hyi.
Qed.

(** C4: [harvest] does not succeed for every module.  For a module that
    requires setup and is not set up, the calculator's early exit hands the
    [int] 0 back as the time remainder and [now() - 0] raises [TypeError],
    after zero items were credited; for an item without yield configuration,
    [get_yield_item_id] raises [DoesNotExist] and nothing is credited. *)
Theorem harvest_ineligible_raises cat w :
  (forall info yi,
     cat_info cat (item (this w)) = Some info ->
     setup_pending cat (this w) info = true ->
     cat_harvest_yield cat (item (this w)) = Some yi ->
     fst (harvest cat w) = Err TypeError
     /\ this (snd (harvest cat w)) = this w
     /\ rows (snd (harvest cat w)) = rows w)
  /\ (cat_harvest_yield cat (item (this w)) = None ->
      harvest cat w = (Err DoesNotExist, w)).
Proof.
  rewrite harvest_eq. split.
  - intros info yi -> Hgate ->. rewrite Hgate. now cbn.
  - intros ->. now destruct (cat_info cat (item (this w))).
Qed.

Lemma harvest_ineligible_raises_witness :
  fst (harvest sample_catalog (sample_world 10 (Some false) 0)) = Err TypeError
  /\ harvest sample_catalog (sample_world 11 None 0)
     = (Err DoesNotExist, sample_world 11 None 0).
Proof.
  split.
  - eapply (proj1 (harvest_ineligible_raises sample_catalog (sample_world 10 (Some false) 0)));
      reflexivity.
  - apply (proj2 (harvest_ineligible_raises sample_catalog (sample_world 11 None 0))).
    reflexivity.
Defined.

(** What [harvest] leaves in [is_setup]: the stored value is untouched when it
    raises, and after a successful harvest it is [None] for an item without
    setup requirement and [False] for one with it. *)
Lemma harvest_is_setup cat w :
  let w' := snd (harvest cat w) in
  (is_setup (this w') = is_setup (this w) /\ is_ok (fst (harvest cat w)) = false)
  \/ (exists info,
        cat_info cat (item (this w)) = Some info
        /\ setup_pending cat (this w) info = false
        /\ is_ok (fst (harvest cat w)) = true
        /\ is_setup (this w') = (if setupable cat (this w) info then Some false else None)
        /\ rows w' !! pk (this w) = Some (this w')).
Proof.
  cbn zeta. rewrite harvest_eq.
  destruct (cat_info cat (item (this w))) as [info|] eqn:Hinfo; [|now left].
  destruct (cat_harvest_yield cat (item (this w))) as [yi|]; [|now left].
  destruct (setup_pending cat (this w) info) eqn:Hgate; [now left|].
  destruct (time_part _ yi) as [[ty tr]|e]; [|now left].
  right. exists info. cbn zeta.
  split; [reflexivity|]. split; [exact Hgate|]. split; [reflexivity|].
  unfold saved, normalized, setupable. cbn. split.
  - now destruct (bool_decide (editor_type info = Some TRADE)
                  || has_rows (cat_setup_cost cat (item (this w)))).
  - destruct (negb _ && _); cbn; apply lookup_insert_eq.
Qed.

(** C7: a module whose item has no setup requirement has [is_setup = None],
    and this is an invariant of the object and of every stored row under
    each persisting operation: creation, [setup], [teardown], [harvest] and
    [click], whether they return or raise.  In particular [harvest] leaves a
    module without setup requirement in the not-applicable state, it never
    moves a module from not-applicable to needs-setup, so a module that
    comes out of it newly in needs-setup was set up before, and it does move
    a set-up module of an item with setup requirement to needs-setup. *)
Theorem setup_state_invariant cat :
  (forall op w, invariant cat w -> invariant cat (run cat op w))
  /\ (forall w,
        no_setup_requirement cat (this w) ->
        is_setup (this w) = None \/ is_ok (fst (harvest cat w)) = true ->
        is_setup (this (run cat Harvest w)) = None)
  /\ (forall w,
        is_setup (this (run cat Harvest w)) = Some false ->
        is_setup (this w) <> Some false ->
        is_setup (this w) = Some true)
  /\ (forall w info,
        cat_info cat (item (this w)) = Some info ->
        setupable cat (this w) info = true ->
        is_setup (this w) = Some true ->
        is_ok (fst (harvest cat w)) = true ->
        is_setup (this (run cat Harvest w)) = Some false).
Proof.
  split; [|split; [|split]].
  - intros [id it o x y| | | |clicker] w Hw; cbn [run].
    + now apply preserves_create.
    + now apply preserves_setup.
    + now apply preserves_teardown.
    + now apply preserves_harvest.
    + now apply preserves_click.
  - intros w (info & Hinfo & Hno) Hbefore. cbn [run].
    destruct (harvest_is_setup cat w) as [[Hsame Hfail]|(info' & Hinfo' & _ & Hok & Hset & _)].
    + destruct Hbefore as [Hnone|Hok]; [congruence|].
      rewrite Hok in Hfail. discriminate.
    + assert (info' = info) by congruence. subst info'. now rewrite Hset, Hno.
  - intros w Hafter Hbefore. cbn [run] in Hafter.
    destruct (harvest_is_setup cat w) as [[Hsame _]|(info & _ & Hgate & _ & Hset & _)].
    + congruence.
    + rewrite Hset in Hafter. unfold setup_pending in Hgate.
      destruct (setupable cat (this w) info); [|discriminate].
      destruct (is_setup (this w)) as [[|]|]; [reflexivity | contradiction | discriminate].
  - intros w info Hinfo Hreq Hup Hok. cbn [run].
    destruct (harvest_is_setup cat w) as [[_ Hfail]|(info' & Hinfo' & _ & _ & Hset & _)].
    + rewrite Hok in Hfail. discriminate.
    + assert (info' = info) by congruence. subst info'. now rewrite Hset, Hreq.
Qed.

Lemma setup_state_invariant_witness :
  invariant sample_catalog (run sample_catalog Harvest (sample_world 11 None 0))
  /\ invariant sample_catalog (run sample_catalog (Click 200) (sample_world 11 None 0))
  /\ is_setup (this (run sample_catalog Harvest (sample_world 10 (Some true) 0)))
     = Some false.
Proof.
  assert (Hinv : invariant sample_catalog (sample_world 11 None 0)).
  { split; [now intros _ | intros k row Hrow].
    change (rows (sample_world 11 None 0)) with (∅ : gmap Z Module) in Hrow.
    now rewrite lookup_empty in Hrow. }
  destruct (setup_state_invariant sample_catalog) as (Hkeep & _ & _ & Hdown).
  split; [now apply Hkeep|]. split; [now apply Hkeep|].
  apply (Hdown _ {| editor_type := Some GENERIC |}); reflexivity.
Defined.

(** ** Clicking: costs, rewards and friends *)

Lemma with_inventory_id w : with_inventory (inventory w) w = w.
Proof. now destruct w. Qed.

Lemma pay_eq u costs : forall w,
  for_each (fun c => remove_inv_item u (cost_item c) (cost_qty c)) costs w
  = (fst (pay u costs (inventory w)), with_inventory (snd (pay u costs (inventory w))) w).
Proof.
  induction costs as [|c costs IH]; intros w; cbn [for_each pay].
  - cbn. now rewrite with_inventory_id.
  - unfold bind, remove_inv_item at 1.
    destruct (qty_of (inventory w) u (cost_item c) - cost_qty c <? 0).
    + cbn. now rewrite with_inventory_id.
    + rewrite IH. reflexivity.
Qed.

Lemma pay_error u costs : forall inv e,
  fst (pay u costs inv) = Err e -> e = InsufficientInventory.
Proof.
  induction costs as [|c costs IH]; intros inv e; cbn [pay].
  - discriminate.
  - destruct (_ <? 0); [now intros [= <-] | apply IH].
Qed.

Lemma refund_eq u costs : forall w,
  for_each (fun c => add_inv_item u (cost_item c) (cost_qty c)) costs w
  = (Ok tt, with_inventory (refund u costs (inventory w)) w).
Proof.
  induction costs as [|c costs IH]; intros w; cbn [for_each refund].
  - cbn. now rewrite with_inventory_id.
  - unfold bind, add_inv_item at 1, modify. rewrite IH. reflexivity.
Qed.

Lemma update_clicks_ok cat clicker w p info :
  clicker <> owner (this w) ->
  profiles w !! clicker = Some p ->
  0 < available_votes p ->
  is_clickable (this w) = true ->
  cat_info cat (item (this w)) = Some info ->
  _update_clicks cat clicker w = (Ok tt, saved cat info (voted clicker p w)).
Proof.
  intros Hne Hp Hvotes Hclick Hinfo.
  unfold _update_clicks, bind at 1, self at 1.
  rewrite bool_decide_eq_false_2 by exact Hne.
  unfold bind at 1, profile_of at 1. rewrite Hp.
  rewrite (proj2 (Z.leb_gt _ _)) by lia. rewrite Hclick. cbn [negb].
  unfold bind, set_available_votes, update_self, modify. rewrite Hp.
  rewrite save_eq. cbn. rewrite Hinfo. reflexivity.
Qed.

(** [save] stores a clickable module as it is. *)
Lemma saved_voted cat clicker p info w :
  is_clickable (this w) = true ->
  saved cat info (voted clicker p w)
  = with_rows (<[pk (this w) := this (voted clicker p w)]> (rows w)) (voted clicker p w).
Proof.
  intros Hclick. unfold saved, normalized, voted. cbn.
  unfold is_clickable in Hclick.
  destruct (is_setup (this w)) as [[|]|]; try discriminate;
    now rewrite bool_decide_eq_false_2, andb_false_r by discriminate.
Qed.

Lemma distribute_items_cost_failure cat clicker w e :
  fst (pay clicker (cat_execution_cost cat (item (this w))) (inventory w)) = Err e ->
  _distribute_items cat clicker w
  = (Err e,
     with_inventory (snd (pay clicker (cat_execution_cost cat (item (this w))) (inventory w))) w).
Proof.
  intros Hpay. unfold _distribute_items, bind at 1, self at 1.
  unfold bind at 1. rewrite pay_eq, Hpay. reflexivity.
Qed.

Lemma same_people_refl w : same_people w w.
Proof. now repeat split. Qed.

Lemma same_people_trans w1 w2 w3 :
  same_people w1 w2 -> same_people w2 w3 -> same_people w1 w3.
Proof.
  intros (? & ? & ? & ? & ?) (? & ? & ? & ? & ?). repeat split; congruence.
Qed.

Lemma same_people_with_inventory i w : same_people w (with_inventory i w).
Proof. now repeat split. Qed.

Lemma same_people_with_draws n w : same_people w (with_draws n w).
Proof. now repeat split. Qed.

(** The reward loops never raise and touch inventories only. *)
Lemma reward_loop_ok u (l : list ClickYield) : forall w,
  exists w',
    for_each (fun g => hit <- roll (cy_probability g) ;;
                       when hit (add_inv_item u (cy_item g) (cy_qty g))) l w
    = (Ok tt, w')
    /\ same_people w w'.
Proof.
  induction l as [|g l IH]; intros w; cbn [for_each].
  - exists w. split; [reflexivity | apply same_people_refl].
  - unfold bind at 1. unfold bind at 1, roll at 1, bind at 1, next_random at 1, ret at 1.
    set (hit := below_percent _ _).
    destruct hit; cbn [when].
    + unfold add_inv_item at 1, modify.
      match goal with
      | |- context [for_each _ l ?w1] => destruct (IH w1) as (w' & -> & Hsame)
      end.
      exists w'. split; [reflexivity|].
      eapply same_people_trans; [|exact Hsame].
      eapply same_people_trans; [apply same_people_with_draws|].
      apply same_people_with_inventory.
    + unfold ret at 1.
      match goal with
      | |- context [for_each _ l ?w1] => destruct (IH w1) as (w' & -> & Hsame)
      end.
      exists w'. split; [reflexivity|].
      eapply same_people_trans; [apply same_people_with_draws | exact Hsame].
Qed.

Lemma roll_certain probability w :
  100 <= probability ->
  roll probability w = (Ok true, with_draws (S (draws w)) w).
Proof.
  intros Hp. unfold roll, bind, next_random, ret, below_percent.
  rewrite (proj2 (Z.leb_gt _ _)), (proj2 (Z.leb_le _ _)) by lia. reflexivity.
Qed.

Lemma get_random_friend_eq w : _get_random_friend w = choice (eligible_friends w) w.
Proof. reflexivity. Qed.

Lemma eligible_friends_same w w' :
  owner (this w') = owner (this w) ->
  friendships w' = friendships w ->
  (forall u, is_plain_user w' u = is_plain_user w u) ->
  eligible_friends w' = eligible_friends w.
Proof.
  intros Ho Hf Hp. unfold eligible_friends. rewrite Ho, Hf.
  f_equal; f_equal; apply list_filter_iff; intros f; now rewrite Hp.
Qed.

Lemma distribute_items_no_friends cat clicker w fm rest :
  is_ok (fst (pay clicker (cat_execution_cost cat (item (this w))) (inventory w))) = true ->
  cat_message cat (item (this w)) = fm :: rest ->
  100 <= mm_probability fm ->
  eligible_friends w = [] ->
  exists w',
    _distribute_items cat clicker w = (Err IndexError, w') /\ same_people w w'.
Proof.
  intros Hpay Hmsg Hprob Hnone.
  unfold _distribute_items, bind at 1, self at 1.
  unfold bind at 1. rewrite pay_eq.
  destruct (fst (pay clicker _ (inventory w))) as [[]|e]; [|discriminate].
  set (w1 := with_inventory _ w).
  destruct (reward_loop_ok clicker (cat_guest_yield cat (item (this w))) w1)
    as (w2 & Hguest & Hs2).
  unfold bind at 1. rewrite Hguest.
  destruct (reward_loop_ok (owner (this w)) (cat_owner_yield cat (item (this w))) w2)
    as (w3 & Howner & Hs3).
  unfold bind at 1. rewrite Howner.
  assert (Hs : same_people w (with_draws (S (draws w3)) w3)).
  { eapply same_people_trans; [apply same_people_with_inventory|]. fold w1.
    eapply same_people_trans; [exact Hs2|].
    eapply same_people_trans; [exact Hs3 | apply same_people_with_draws]. }
  rewrite Hmsg. cbn [for_each].
  unfold bind at 1. unfold bind at 1. unfold bind at 1. rewrite roll_certain by exact Hprob.
  cbn [when]. unfold bind at 1. rewrite get_random_friend_eq.
  destruct Hs as (Ht & Hr & Hp & Hf & Ho).
  rewrite (eligible_friends_same w).
  - rewrite Hnone. cbn [choice]. unfold raise.
    eexists. split; [reflexivity|]. now repeat split.
  - now rewrite Ht.
  - exact Hf.
  - intros u. unfold is_plain_user. now rewrite Hp.
Qed.

(** A click whose bookkeeping went through and whose distribution raises. *)
Lemma click_after_bookkeeping cat clicker w p info e w' :
  clicker <> owner (this w) ->
  profiles w !! clicker = Some p ->
  0 < available_votes p ->
  is_clickable (this w) = true ->
  cat_info cat (item (this w)) = Some info ->
  _distribute_items cat clicker (saved cat info (voted clicker p w)) = (Err e, w') ->
  click cat clicker w = (Err e, w').
Proof.
  intros Hne Hp Hvotes Hclick Hinfo Hdist. unfold click.
  rewrite (bind_ok _ _ _ _ _ (update_clicks_ok cat clicker w p info Hne Hp Hvotes Hclick Hinfo)).
  now apply bind_err.
Qed.

(** C2, as the code has it: when the removal of the execution cost fails
    because the visitor lacks the items, [click] raises the ledger's error and
    nothing is rolled back.  The visitor's vote allowance stays one lower,
    [clicks_since_last_harvest] and [total_clicks] stay one higher, in memory
    and in the stored row, and the cost items removed before the failing one
    stay removed; no reward is credited, no message is sent and the setup
    state is as before. *)
Theorem click_cost_failure_keeps_bookkeeping cat clicker w p info :
  clicker <> owner (this w) ->
  profiles w !! clicker = Some p ->
  0 < available_votes p ->
  is_clickable (this w) = true ->
  cat_info cat (item (this w)) = Some info ->
  is_ok (fst (pay clicker (cat_execution_cost cat (item (this w))) (inventory w))) = false ->
  let w' := snd (click cat clicker w) in
  fst (click cat clicker w) = Err InsufficientInventory
  /\ profiles w' !! clicker
     = Some (Build_Profile (available_votes p - 1) (is_networker p))
  /\ clicks_since_last_harvest (this w') = clicks_since_last_harvest (this w) + 1
  /\ total_clicks (this w') = total_clicks (this w) + 1
  /\ rows w' !! pk (this w) = Some (this w')
  /\ is_setup (this w') = is_setup (this w)
  /\ inventory w'
     = snd (pay clicker (cat_execution_cost cat (item (this w))) (inventory w))
  /\ outbox w' = outbox w.
Proof.
  intros Hne Hp Hvotes Hclick Hinfo Hpay.
  destruct (fst (pay clicker (cat_execution_cost cat (item (this w))) (inventory w)))
    as [|e] eqn:Hfst; [discriminate|].
  pose proof (pay_error _ _ _ _ Hfst) as ->.
  erewrite click_after_bookkeeping; try eassumption.
  2: { apply distribute_items_cost_failure.
       rewrite saved_voted by exact Hclick. exact Hfst. }
  rewrite saved_voted by exact Hclick. cbn.
  repeat split; apply lookup_insert_eq.
Qed.

Lemma click_rollback_counterexample :
  fst (click sample_catalog 200 (sample_world 10 (Some true) 0))
  = Err InsufficientInventory
  /\ ~ rolled_back (sample_world 10 (Some true) 0)
                   (snd (click sample_catalog 200 (sample_world 10 (Some true) 0))).
Proof.
  split; [reflexivity|].
  intros (_ & Hclicks & _). vm_compute in Hclicks. discriminate.
Qed.

Lemma click_cost_failure_keeps_bookkeeping_witness :
  fst (click sample_catalog 200 (sample_world 10 (Some true) 0))
  = Err InsufficientInventory
  /\ profiles (snd (click sample_catalog 200 (sample_world 10 (Some true) 0))) !! 200
     = Some (Build_Profile 4 false)
  /\ total_clicks (this (snd (click sample_catalog 200 (sample_world 10 (Some true) 0)))) = 1.
Proof.
  destruct (click_cost_failure_keeps_bookkeeping sample_catalog 200
              (sample_world 10 (Some true) 0) (Build_Profile 5 false)
              {| editor_type := Some GENERIC |})
    as (Herr & Hvotes & _ & Htotal & _);
    [discriminate | reflexivity | reflexivity | reflexivity | reflexivity | reflexivity |].
  split; [exact Herr|]. split; [exact Hvotes | exact Htotal].
Defined.

Lemma voted_plain_user cat clicker p info w u :
  profiles w !! clicker = Some p ->
  is_clickable (this w) = true ->
  is_plain_user (saved cat info (voted clicker p w)) u = is_plain_user w u.
Proof.
  intros Hp Hclick. rewrite saved_voted by exact Hclick.
  unfold is_plain_user. cbn. rewrite lookup_insert.
  case_decide; [subst u; now rewrite Hp | reflexivity].
Qed.

(** C3, as the code has it: when a friend-message entry fires and the owner
    has no eligible friend, [random.choice] is handed an empty list and the
    click raises [IndexError].  Nothing catches it: the click does not
    complete, and the vote and the click recorded before stay recorded. *)
Theorem click_without_friends_raises cat clicker w p info fm rest :
  clicker <> owner (this w) ->
  profiles w !! clicker = Some p ->
  0 < available_votes p ->
  is_clickable (this w) = true ->
  cat_info cat (item (this w)) = Some info ->
  is_ok (fst (pay clicker (cat_execution_cost cat (item (this w))) (inventory w))) = true ->
  cat_message cat (item (this w)) = fm :: rest ->
  100 <= mm_probability fm ->
  eligible_friends w = [] ->
  fst (click cat clicker w) = Err IndexError
  /\ profiles (snd (click cat clicker w)) !! clicker
     = Some (Build_Profile (available_votes p - 1) (is_networker p))
  /\ total_clicks (this (snd (click cat clicker w))) = total_clicks (this w) + 1
  /\ outbox (snd (click cat clicker w)) = outbox w.
Proof.
  intros Hne Hp Hvotes Hclick Hinfo Hpay Hmsg Hprob Hnone.
  destruct (distribute_items_no_friends cat clicker (saved cat info (voted clicker p w)) fm rest)
    as (w' & Hdist & Ht & _ & Hpr & _ & Ho).
  - rewrite saved_voted by exact Hclick. exact Hpay.
  - rewrite saved_voted by exact Hclick. exact Hmsg.
  - exact Hprob.
  - rewrite <- Hnone. apply eligible_friends_same.
    + now rewrite saved_voted by exact Hclick.
    + now rewrite saved_voted by exact Hclick.
    + intros u. now apply voted_plain_user.
  - rewrite (click_after_bookkeeping cat clicker w p info IndexError w') by assumption.
    cbn [fst snd]. rewrite Ht, Hpr, Ho. rewrite saved_voted by exact Hclick. cbn.
    repeat split. apply lookup_insert_eq.
Qed.

Lemma click_without_friends_raises_witness :
  fst (click sample_catalog 200 (sample_world 11 None 0)) = Err IndexError
  /\ profiles (snd (click sample_catalog 200 (sample_world 11 None 0))) !! 200
     = Some (Build_Profile 4 false).
Proof.
  destruct (click_without_friends_raises sample_catalog 200 (sample_world 11 None 0)
              (Build_Profile 5 false) {| editor_type := Some GENERIC |}
              {| mm_message := 3; mm_probability := 100 |} [])
    as (Herr & Hvotes & _);
    [discriminate | reflexivity | reflexivity | reflexivity | reflexivity | reflexivity
    | reflexivity | reflexivity | reflexivity |].
  split; [exact Herr | exact Hvotes].
Defined.


(** ** Setup and teardown *)

Lemma setup_eq cat w :
  setup cat w
  = if truthy (is_setup (this w)) then (Ok tt, w) else (Err AttributeError, w).
Proof.
  unfold setup, bind, self, _needs_setup, raise. cbn.
  now destruct (truthy (is_setup (this w))).
Qed.

(** C5, as the code has it: [setup] on a module that is not set up does fail,
    but not with the not-setupable [RuntimeError]: its guard calls
    [self._needs_setup()], which [Module] does not define, so the call raises
    [AttributeError] before the guard can answer, for an item without setup
    requirement as for any other, and leaves the world as it was. *)
Theorem setup_guard_raises_attribute_error cat w :
  is_setup (this w) <> Some true ->
  setup cat w = (Err AttributeError, w)
  /\ fst (setup cat w) <> Err (RuntimeError "Module is not setupable.").
Proof.
  intros Hnot. rewrite setup_eq.
  destruct (is_setup (this w)) as [[|]|]; [contradiction| |]; now cbn.
Qed.

Lemma setup_guard_raises_attribute_error_witness :
  setup sample_catalog (sample_world 11 None 0)
  = (Err AttributeError, sample_world 11 None 0).
Proof.
  apply (setup_guard_raises_attribute_error sample_catalog (sample_world 11 None 0)).
  discriminate.
Defined.

Lemma qty_of_insert inv u i v u' i' :
  qty_of (<[(u, i) := v]> inv) u' i'
  = if bool_decide ((u, i) = (u', i')) then v else qty_of inv u' i'.
Proof.
  unfold qty_of. rewrite lookup_insert.
  case_decide as H; [rewrite bool_decide_eq_true_2 | rewrite bool_decide_eq_false_2];
    auto.
Qed.

Lemma pay_spent u costs : forall inv inv',
  pay u costs inv = (Ok tt, inv') ->
  forall u' i, qty_of inv' u' i = qty_of inv u' i - spent u costs u' i.
Proof.
  induction costs as [|c costs IH]; intros inv inv'; cbn [pay spent].
  - intros [= <-] u' i. lia.
  - destruct (_ <? 0); [discriminate|]. intros Hpay u' i.
    rewrite (IH _ _ Hpay u' i), qty_of_insert.
    case_bool_decide as Heq; [|lia].
    injection Heq as <- <-. lia.
Qed.

Lemma refund_spent u costs : forall inv u' i,
  qty_of (refund u costs inv) u' i = qty_of inv u' i + spent u costs u' i.
Proof.
  induction costs as [|c costs IH]; intros inv u' i; cbn [refund spent].
  - lia.
  - rewrite IH, qty_of_insert.
    case_bool_decide as Heq; [|lia].
    injection Heq as <- <-. lia.
Qed.

Lemma normalized_set_up cat info m :
  is_setup m = Some true -> normalized cat info m = m.
Proof.
  intros H. unfold normalized.
  now rewrite H, bool_decide_eq_false_2, andb_false_r by discriminate.
Qed.

Lemma normalized_setupable cat info m :
  setupable cat m info = true -> normalized cat info m = m.
Proof. intros H. unfold normalized. now rewrite H. Qed.

Lemma setup_pay_eq cat w :
  setup_pay cat w
  = match cat_info cat (item (this w)) with
    | None => (Err DoesNotExist, w)
    | Some info =>
        match setup_costs cat w with
        | Err e => (Err e, w)
        | Ok costs =>
            let paid := pay (owner (this w)) costs (inventory w) in
            match fst paid with
            | Err e => (Err e, with_inventory (snd paid) w)
            | Ok _ =>
                (Ok tt,
                 saved cat info
                   (with_this
                      (set_last_harvest_time (clock w (ticks w))
                         (set_is_setup (Some true) (this w)))
                      (with_ticks (S (ticks w)) (with_inventory (snd paid) w))))
            end
        end
    end.
Proof.
  unfold setup_pay, setup_costs, bind at 1, self at 1.
  unfold bind at 1, get_settings_classes at 1, bind at 1, get_info at 1.
  destruct (cat_info cat (item (this w))) as [info|] eqn:Hinfo; [|reflexivity].
  set (classes := match editor_type info with
                  | Some t => module_settings_classes t
                  | None => []
                  end).
  assert (Hcl : (match editor_type info with
                 | Some t => ret (module_settings_classes t)
                 | None => ret []
                 end) w = (Ok classes, w)) by (subst classes; now destruct (editor_type info)).
  rewrite Hcl. clear Hcl.
  destruct (bool_decide (ModuleSetupTrade ∈ classes)).
  - unfold bind at 1, bind at 1, get_setup_trade at 1.
    destruct (setup_trades w !! pk (this w)) as [trade|]; [|reflexivity].
    cbn [pay cost_item cost_qty]. unfold remove_inv_item at 1.
    destruct (_ <? 0).
    + cbn. now rewrite with_inventory_id.
    + unfold bind, update_self, modify, now. rewrite save_eq. cbn.
      rewrite Hinfo. reflexivity.
  - unfold bind at 1. rewrite pay_eq.
    destruct (fst (pay (owner (this w)) (cat_setup_cost cat (item (this w))) (inventory w)))
      as [[]|e]; [|reflexivity].
    unfold bind, update_self, modify, now. rewrite save_eq. cbn.
    rewrite Hinfo. reflexivity.
Qed.

Lemma teardown_eq cat w :
  teardown cat w
  = if negb (truthy (is_setup (this w))) then (Ok tt, w)
    else
      match cat_info cat (item (this w)) with
      | None => (Err DoesNotExist, w)
      | Some info =>
          match setup_costs cat w with
          | Err e => (Err e, w)
          | Ok costs =>
              (Ok tt,
               saved cat info
                 (with_this (set_is_setup (Some false) (this w))
                    (with_inventory (refund (owner (this w)) costs (inventory w)) w)))
          end
      end.
Proof.
  unfold teardown, setup_costs, bind at 1, self at 1.
  destruct (negb (truthy (is_setup (this w)))); [reflexivity|].
  unfold bind at 1, get_settings_classes at 1, bind at 1, get_info at 1.
  destruct (cat_info cat (item (this w))) as [info|] eqn:Hinfo; [|reflexivity].
  set (classes := match editor_type info with
                  | Some t => module_settings_classes t
                  | None => []
                  end).
  assert (Hcl : (match editor_type info with
                 | Some t => ret (module_settings_classes t)
                 | None => ret []
                 end) w = (Ok classes, w)) by (subst classes; now destruct (editor_type info)).
  rewrite Hcl. clear Hcl.
  destruct (bool_decide (ModuleSetupTrade ∈ classes)).
  - unfold bind at 1, bind at 1, get_setup_trade at 1.
    destruct (setup_trades w !! pk (this w)) as [trade|]; [|reflexivity].
    cbn [refund cost_item cost_qty].
    unfold bind, add_inv_item, update_self, modify. rewrite save_eq. cbn.
    rewrite Hinfo. reflexivity.
  - unfold bind at 1. rewrite refund_eq.
    unfold bind, update_self, modify. rewrite save_eq. cbn.
    rewrite Hinfo. reflexivity.
Qed.

(** The lines of [setup] behind its guard, followed by [teardown]: paying
    the setup cost, the single trade cost or the itemized list, sets the
    module up and takes exactly the cost from the owner, and [teardown] then
    adds exactly the same quantities back and returns the module to
    needs-setup. *)
Lemma setup_pay_teardown_roundtrip cat w info costs :
  cat_info cat (item (this w)) = Some info ->
  setupable cat (this w) info = true ->
  is_setup (this w) = Some false ->
  setup_costs cat w = Ok costs ->
  is_ok (fst (pay (owner (this w)) costs (inventory w))) = true ->
  exists w1 w2,
    setup_pay cat w = (Ok tt, w1)
    /\ is_setup (this w1) = Some true
    /\ (forall u i,
          qty_of (inventory w1) u i
          = qty_of (inventory w) u i - spent (owner (this w)) costs u i)
    /\ teardown cat w1 = (Ok tt, w2)
    /\ is_setup (this w2) = Some false
    /\ (forall u i, qty_of (inventory w2) u i = qty_of (inventory w) u i).
Proof.
  intros Hinfo Hreq Hstate Hcosts Hpay.
  rewrite setup_pay_eq, Hinfo, Hcosts. cbn zeta.
  destruct (pay (owner (this w)) costs (inventory w)) as [[[]|e] inv'] eqn:Hpaid;
    [|discriminate].
  cbn [fst snd].
  pose proof (pay_spent _ _ _ _ Hpaid) as Hspent.
  set (m1 := set_last_harvest_time (clock w (ticks w)) (set_is_setup (Some true) (this w))).
  set (w1 := saved cat info _).
  assert (Hthis1 : this w1 = m1).
  { subst w1. unfold saved. now rewrite normalized_set_up. }
  assert (Hinv1 : inventory w1 = inv') by reflexivity.
  assert (Htrades1 : setup_trades w1 = setup_trades w) by reflexivity.
  assert (Hcosts1 : setup_costs cat w1 = Ok costs).
  { unfold setup_costs in *. now rewrite Hthis1, Htrades1. }
  set (m2 := set_is_setup (Some false) m1).
  exists w1.
  exists (saved cat info
            (with_this m2 (with_inventory (refund (owner (this w)) costs inv') w1))).
  split; [reflexivity|].
  split; [now rewrite Hthis1|].
  split; [now rewrite Hinv1|].
  split.
  { rewrite teardown_eq, Hcosts1, Hthis1, Hinv1. cbn [m1 is_setup set_last_harvest_time
      set_is_setup truthy negb item owner]. now rewrite Hinfo. }
  unfold saved at 1 2. cbn [this with_this].
  rewrite normalized_setupable by exact Hreq.
  split; [reflexivity|].
  intros u i. cbn. rewrite refund_spent, Hspent. lia.
Qed.

(** C6, as the code has it: for a module whose item has a setup requirement,
    in the needs-setup state, whose owner holds the cost, [setup()] followed
    by [teardown()] does not make the round trip.  The guard of [setup]
    calls [self._needs_setup()], which [Module] does not define, so [setup]
    raises [AttributeError] and the sequence ends there, with the world as
    it was: no cost is taken, the module is never set up, and [teardown] is
    not reached (called all the same, it finds a module that is not set up
    and returns without a refund).  The payment that the claim expects is
    made only by the lines behind the guard, which on this very input would
    go through, take the cost and set the module up, and which [teardown]
    would then undo exactly. *)
Theorem setup_teardown_stops_at_guard cat w info costs :
  cat_info cat (item (this w)) = Some info ->
  setupable cat (this w) info = true ->
  is_setup (this w) = Some false ->
  setup_costs cat w = Ok costs ->
  is_ok (fst (pay (owner (this w)) costs (inventory w))) = true ->
  setup cat w = (Err AttributeError, w)
  /\ (setup cat ;;; teardown cat) w = (Err AttributeError, w)
  /\ teardown cat w = (Ok tt, w)
  /\ exists w1 w2,
       setup_pay cat w = (Ok tt, w1)
       /\ is_setup (this w1) = Some true
       /\ (forall u i,
             qty_of (inventory w1) u i
             = qty_of (inventory w) u i - spent (owner (this w)) costs u i)
       /\ teardown cat w1 = (Ok tt, w2)
       /\ (forall u i, qty_of (inventory w2) u i = qty_of (inventory w) u i).
Proof.
  intros Hinfo Hreq Hstate Hcosts Hpay.
  assert (Hsetup : setup cat w = (Err AttributeError, w))
    by (rewrite setup_eq, Hstate; reflexivity).
  split; [exact Hsetup|].
  split; [unfold bind; now rewrite Hsetup|].
  split; [rewrite teardown_eq, Hstate; reflexivity|].
  destruct (setup_pay_teardown_roundtrip cat w info costs Hinfo Hreq Hstate Hcosts Hpay)
    as (w1 & w2 & Hp & Hs1 & Hq1 & Hdown & _ & Hq2).
  exists w1, w2. repeat split; assumption.
Qed.

Lemma setup_teardown_stops_at_guard_witness :
  (setup sample_catalog ;;; teardown sample_catalog) (sample_world 10 (Some false) 0)
  = (Err AttributeError, sample_world 10 (Some false) 0)
  /\ (setup sample_catalog ;;; teardown sample_catalog) (sample_world 12 (Some false) 0)
     = (Err AttributeError, sample_world 12 (Some false) 0).
Proof.
  split.
  - apply (setup_teardown_stops_at_guard sample_catalog (sample_world 10 (Some false) 0)
             {| editor_type := Some GENERIC |} [ {| cost_item := 7; cost_qty := 2 |} ]);
      reflexivity.
  - apply (setup_teardown_stops_at_guard sample_catalog (sample_world 12 (Some false) 0)
             {| editor_type := Some TRADE |} [ {| cost_item := 7; cost_qty := 2 |} ]);
      reflexivity.
Defined.

(** ** Observations that the methods keep *)

Lemma keeps_ret {T A} (f : World -> T) (a : A) : keeps f (ret a).
Proof. now intros w. Qed.

Lemma keeps_bind {T A B} (f : World -> T) (c : M A) (k : A -> M B) :
  keeps f c -> (forall a, keeps f (k a)) -> keeps f (bind c k).
Proof.
  intros Hc Hk w. unfold bind. specialize (Hc w).
  destruct (c w) as [[a|e] w1]; cbn in *; [|exact Hc].
  now rewrite Hk.
Qed.

Lemma keeps_when {T} (f : World -> T) b c : keeps f c -> keeps f (when b c).
Proof. destruct b; [trivial | intros _; apply keeps_ret]. Qed.

Lemma keeps_for_each {T A} (f : World -> T) (body : A -> M unit) l :
  (forall x, keeps f (body x)) -> keeps f (for_each body l).
Proof.
  intros H. induction l as [|x l IH]; cbn [for_each].
  - apply keeps_ret.
  - apply keeps_bind; [apply H | intros _; exact IH].
Qed.

(** A step that is not a bind, a loop or a branch: run it and look. *)
Ltac keeps_leaf :=
  let w := fresh "w" in
  intros w;
  unfold ret, raise, lift, get, modify, self, update_self, now, next_random,
    add_inv_item, remove_inv_item, send_template, profile_of, get_info,
    get_setup_trade, set_available_votes, super_save, _needs_setup;
  cbn;
  repeat match goal with
         | |- context [match ?x with _ => _ end] => destruct x; cbn
         end;
  reflexivity.

Ltac keeps_step :=
  match goal with
  | |- keeps _ (bind _ _) => apply keeps_bind; [|intros ?]
  | |- keeps _ (for_each _ _) => apply keeps_for_each; intros ?
  | |- keeps _ (when _ _) => apply keeps_when
  | |- keeps _ (if ?b then _ else _) => destruct b
  | |- keeps _ (match ?x with _ => _ end) => destruct x
  | |- keeps _ _ => solve [keeps_leaf]
  end.

(** Unfold the methods down to their steps, then walk them. *)
Ltac keeps_all :=
  unfold click, click_rewards, consume_setup, calc_yield_qty, _distribute_items,
    _update_clicks, harvest, setup, setup_pay, teardown,
    _calc_yield_info, get_yield_item_id, get_settings_classes,
    _get_random_friend, save, is_setupable, roll, randrange, choice;
  repeat keeps_step.

Lemma keeps_identity_harvest cat : keeps (fun w => identity (this w)) (harvest cat).
Proof. keeps_all. Qed.
Lemma keeps_identity_teardown cat : keeps (fun w => identity (this w)) (teardown cat).
Proof. keeps_all. Qed.
Lemma keeps_identity_setup cat : keeps (fun w => identity (this w)) (setup cat).
Proof. keeps_all. Qed.
Lemma keeps_identity_click cat u : keeps (fun w => identity (this w)) (click cat u).
Proof. keeps_all. Qed.

Lemma keeps_identity_click_rewards cat u :
  keeps (fun w => identity (this w)) (click_rewards cat u).
Proof. unfold click_rewards. keeps_all. Qed.

(** X1: [setup], [teardown], [harvest] and [click] never change what names
    and places the module: its key, item, owner and grid position are the
    same after the call as before, whether the call returns or raises. *)
Theorem operations_keep_identity cat clicker w :
  identity (this (run cat Setup w)) = identity (this w)
  /\ identity (this (run cat Teardown w)) = identity (this w)
  /\ identity (this (run cat Harvest w)) = identity (this w)
  /\ identity (this (run cat (Click clicker) w)) = identity (this w).
Proof.
  repeat split; cbn [run].
  - apply (keeps_identity_setup cat w).
  - apply (keeps_identity_teardown cat w).
  - apply (keeps_identity_harvest cat w).
  - apply (keeps_identity_click cat clicker w).
Qed.

Lemma lifecycle_untouched_harvest cat w : lifecycle_untouched w (snd (harvest cat w)).
Proof.
  repeat split.
  - assert (H : keeps (fun w => total_clicks (this w)) (harvest cat)) by keeps_all. apply H.
  - assert (H : keeps profiles (harvest cat)) by keeps_all. apply H.
  - assert (H : keeps friendships (harvest cat)) by keeps_all. apply H.
  - assert (H : keeps setup_trades (harvest cat)) by keeps_all. apply H.
  - assert (H : keeps outbox (harvest cat)) by keeps_all. apply H.
Qed.

Lemma lifecycle_untouched_teardown cat w : lifecycle_untouched w (snd (teardown cat w)).
Proof.
  repeat split.
  - assert (H : keeps (fun w => total_clicks (this w)) (teardown cat)) by keeps_all. apply H.
  - assert (H : keeps profiles (teardown cat)) by keeps_all. apply H.
  - assert (H : keeps friendships (teardown cat)) by keeps_all. apply H.
  - assert (H : keeps setup_trades (teardown cat)) by keeps_all. apply H.
  - assert (H : keeps outbox (teardown cat)) by keeps_all. apply H.
Qed.

(** X2: [teardown] and [harvest] are the owner's business only: they never
    change [total_clicks], any profile (so nobody's votes), any friendship,
    any trade setting, and they never send a message. *)
Theorem lifecycle_leaves_votes_and_messages cat w :
  lifecycle_untouched w (run cat Teardown w)
  /\ lifecycle_untouched w (run cat Harvest w).
Proof.
  split; [apply lifecycle_untouched_teardown | apply lifecycle_untouched_harvest].
Qed.

(** ** Clicking: guards, counting and rewards *)

Lemma update_clicks_eq cat clicker w :
  _update_clicks cat clicker w
  = if bool_decide (clicker = owner (this w)) then
      (Err (ValueError "Can't vote on own module"), w)
    else
      match profiles w !! clicker with
      | None => (Err DoesNotExist, w)
      | Some p =>
          if available_votes p <=? 0 then (Err (RuntimeError "Voter has no votes left"), w)
          else if negb (is_clickable (this w)) then
            (Err (RuntimeError "This module is not set up"), w)
          else save cat (voted clicker p w)
      end.
Proof.
  unfold _update_clicks, bind at 1, self at 1.
  destruct (bool_decide (clicker = owner (this w))); [reflexivity|].
  unfold bind at 1, profile_of at 1.
  destruct (profiles w !! clicker) as [p|] eqn:Hp; [|reflexivity].
  destruct (available_votes p <=? 0); [reflexivity|].
  destruct (negb (is_clickable (this w))); [reflexivity|].
  unfold bind, set_available_votes, update_self, modify. rewrite Hp. reflexivity.
Qed.

Lemma click_split cat clicker :
  click cat clicker = (_update_clicks cat clicker ;;; click_rewards cat clicker).
Proof. reflexivity. Qed.

Lemma update_clicks_rejected cat clicker w :
  admitted clicker w = false ->
  exists e, _update_clicks cat clicker w = (Err e, w).
Proof.
  unfold admitted. rewrite update_clicks_eq.
  destruct (bool_decide (clicker = owner (this w))); [eauto|].
  destruct (profiles w !! clicker) as [p|]; [|eauto].
  cbn [negb andb].
  destruct (Z.ltb_spec 0 (available_votes p)) as [Hpos|Hneg].
  - rewrite (proj2 (Z.leb_gt _ _)) by lia. cbn [andb]. intros ->. eauto.
  - rewrite (proj2 (Z.leb_le _ _)) by lia. eauto.
Qed.

(** X3: a click that one of the guards turns away changes nothing at all,
    and the guards are tried in a fixed order: a visitor without votes is
    told so whatever the state of the module, and a visitor with votes is
    told that a module in the needs-setup state is not set up. *)
Theorem click_rejected_changes_nothing cat clicker w :
  (admitted clicker w = false ->
   is_ok (fst (click cat clicker w)) = false /\ snd (click cat clicker w) = w)
  /\ (forall p,
        clicker <> owner (this w) ->
        profiles w !! clicker = Some p ->
        available_votes p <= 0 ->
        click cat clicker w = (Err (RuntimeError "Voter has no votes left"), w))
  /\ (forall p,
        clicker <> owner (this w) ->
        profiles w !! clicker = Some p ->
        0 < available_votes p ->
        is_setup (this w) = Some false ->
        click cat clicker w = (Err (RuntimeError "This module is not set up"), w)).
Proof.
  split; [|split].
  - intros Hno. destruct (update_clicks_rejected cat clicker w Hno) as [e He].
    rewrite click_split, (bind_err _ _ _ _ _ He). now split.
  - intros p Hne Hp Hvotes. rewrite click_split. apply bind_err.
    rewrite update_clicks_eq, bool_decide_eq_false_2, Hp by exact Hne.
    now rewrite (proj2 (Z.leb_le _ _)) by lia.
  - intros p Hne Hp Hvotes Hstate. rewrite click_split. apply bind_err.
    rewrite update_clicks_eq, bool_decide_eq_false_2, Hp by exact Hne.
    rewrite (proj2 (Z.leb_gt _ _)) by lia.
    unfold is_clickable. now rewrite Hstate.
Qed.

Lemma click_rejected_changes_nothing_witness :
  click sample_catalog 200 (sample_world 10 (Some false) 0)
  = (Err (RuntimeError "This module is not set up"), sample_world 10 (Some false) 0).
Proof.
  apply (proj2 (proj2 (click_rejected_changes_nothing sample_catalog 200
                         (sample_world 10 (Some false) 0)))
           (Build_Profile 5 false)); [discriminate | reflexivity | reflexivity | reflexivity].
Defined.

Lemma admitted_true clicker w :
  admitted clicker w = true ->
  clicker <> owner (this w)
  /\ exists p, profiles w !! clicker = Some p /\ 0 < available_votes p
               /\ is_clickable (this w) = true.
Proof.
  unfold admitted. intros H. apply andb_prop in H as [Hne H].
  apply negb_true_iff, bool_decide_eq_false in Hne. split; [exact Hne|].
  destruct (profiles w !! clicker) as [p|]; [|discriminate].
  apply andb_prop in H as [Hv Hc]. apply Z.ltb_lt in Hv. eauto.
Qed.

Lemma keeps_clicks_click_rewards cat u :
  keeps (fun w => (clicks_since_last_harvest (this w), total_clicks (this w)))
        (click_rewards cat u).
Proof. unfold click_rewards. keeps_all. Qed.

Lemma keeps_profiles_click_rewards cat u : keeps profiles (click_rewards cat u).
Proof. unfold click_rewards. keeps_all. Qed.

(** X4: a click counts once and costs one vote exactly when the guards let
    the visitor through, however the rest of the click goes: afterwards
    [total_clicks] and [clicks_since_last_harvest] are one higher and the
    visitor has one vote less if the visitor was admitted, and all three are
    unchanged if not.  No path counts a click twice or takes a second
    vote. *)
Theorem click_counts_once cat clicker w :
  let w' := snd (click cat clicker w) in
  let n := if admitted clicker w then 1 else 0 in
  total_clicks (this w') = total_clicks (this w) + n
  /\ clicks_since_last_harvest (this w')
     = clicks_since_last_harvest (this w) + n
  /\ votes_of w' clicker = (fun v => v - n) <$> votes_of w clicker.
Proof.
  cbn zeta. destruct (admitted clicker w) eqn:Hadm.
  - destruct (admitted_true clicker w Hadm) as (Hne & p & Hp & Hvotes & Hclick).
    assert (Hvoted : let w1 := voted clicker p w in
              total_clicks (this w1) = total_clicks (this w) + 1
              /\ clicks_since_last_harvest (this w1) = clicks_since_last_harvest (this w) + 1
              /\ votes_of w1 clicker = (fun v => v - 1) <$> votes_of w clicker).
    { unfold votes_of, voted. cbn. rewrite lookup_insert_eq, Hp. now cbn. }
    cbn zeta in Hvoted.
    rewrite click_split. unfold bind.
    rewrite update_clicks_eq, bool_decide_eq_false_2, Hp by exact Hne.
    rewrite (proj2 (Z.leb_gt _ _)) by lia. rewrite Hclick. cbn [negb].
    rewrite save_eq.
    destruct (cat_info cat (item (this (voted clicker p w)))) as [info|] eqn:Hinfo.
    + rewrite saved_voted by exact Hclick.
      set (w1 := with_rows _ (voted clicker p w)).
      pose proof (keeps_clicks_click_rewards cat clicker w1) as Hk.
      pose proof (keeps_profiles_click_rewards cat clicker w1) as Hpr.
      cbn beta in Hk. apply pair_equal_spec in Hk as [Hk1 Hk2].
      unfold votes_of at 1. rewrite Hpr, Hk1, Hk2. exact Hvoted.
    + exact Hvoted.
  - destruct (update_clicks_rejected cat clicker w Hadm) as [e He].
    rewrite click_split, (bind_err _ _ _ _ _ He). cbn [snd].
    repeat split; try lia.
    unfold votes_of. destruct (profiles w !! clicker) as [p|]; cbn; [|reflexivity].
    f_equal. lia.
Qed.

Lemma same_cast_refl w : same_cast w w.
Proof. now repeat split. Qed.

Lemma same_cast_trans w1 w2 w3 : same_cast w1 w2 -> same_cast w2 w3 -> same_cast w1 w3.
Proof.
  intros (? & ? & ? & ?) (? & ? & ? & ?). repeat split; congruence.
Qed.

Lemma same_people_cast w w' : same_people w w' -> same_cast w w'.
Proof. intros (? & ? & ? & ? & ?). now repeat split. Qed.

Lemma eligible_friends_cast w w' : same_cast w w' -> eligible_friends w' = eligible_friends w.
Proof.
  intros (Ht & _ & Hp & Hf). apply eligible_friends_same.
  - now rewrite Ht.
  - exact Hf.
  - intros u. unfold is_plain_user. now rewrite Hp.
Qed.

Lemma choice_elem {A} (l : list A) w a w' :
  choice l w = (Ok a, w') -> a ∈ l /\ w' = with_draws (S (draws w)) w.
Proof.
  destruct l as [|x l]; cbn [choice]; [discriminate|].
  remember (x :: l) as l0 eqn:Hl0.
  unfold bind, next_random, ret. intros H. injection H as <- <-.
  split; [|reflexivity].
  assert (Hlen : (0 < length l0)%nat) by (subst l0; cbn; lia).
  pose proof (Z.mod_pos_bound (rand w (draws w)) (Z.of_nat (length l0)) ltac:(lia)).
  apply list_elem_of_In. apply nth_In. lia.
Qed.

(** One entry of the message table: it sends at most one message, from the
    owner to an eligible friend, and raises only for want of friends. *)
Lemma message_entry o friends fm w r w1 :
  eligible_friends w = friends ->
  (hit <- roll (mm_probability fm) ;;
   when hit (random_friend <- _get_random_friend ;;
             send_template (mm_message fm) o random_friend)) w = (r, w1) ->
  exists sent,
    same_cast w w1
    /\ inventory w1 = inventory w
    /\ outbox w1 = outbox w ++ sent
    /\ Forall (fun m => sm_sender m = o /\ sm_recipient m ∈ friends
                        /\ sm_template m = mm_message fm) sent
    /\ (friends <> [] -> r = Ok tt).
Proof.
  intros Hfr. unfold bind at 1, roll at 1, bind at 1, next_random at 1, ret at 1.
  set (w0 := with_draws (S (draws w)) w).
  assert (Hfr0 : eligible_friends w0 = friends) by exact Hfr.
  destruct (below_percent _ _); cbn [when].
  - unfold bind at 1. rewrite get_random_friend_eq, Hfr0.
    destruct (choice friends w0) as [[friend|e] w2] eqn:Hch.
    + apply choice_elem in Hch as [Hin ->].
      unfold send_template, modify. intros [= <- <-].
      exists [Build_SentMessage (mm_message fm) o friend].
      repeat split; try reflexivity. repeat constructor. exact Hin.
    + intros [= <- <-]. exists []. rewrite app_nil_r.
      destruct friends as [|x friends]; cbn [choice] in Hch.
      * injection Hch as _ <-. repeat split; try constructor. contradiction.
      * unfold bind, next_random, ret in Hch. discriminate.
  - unfold ret. intros [= <- <-]. exists []. rewrite app_nil_r.
    repeat split; constructor.
Qed.

(** The message loop: whatever it does, it only adds messages from the owner
    to eligible friends, and with at least one eligible friend it does not
    raise. *)
Lemma message_loop o friends all_msgs msgs : forall w r w',
  eligible_friends w = friends ->
  (forall fm, fm ∈ msgs -> fm ∈ all_msgs) ->
  for_each (fun fm => hit <- roll (mm_probability fm) ;;
                      when hit (random_friend <- _get_random_friend ;;
                                send_template (mm_message fm) o random_friend))
           msgs w = (r, w') ->
  exists sent,
    same_cast w w'
    /\ inventory w' = inventory w
    /\ outbox w' = outbox w ++ sent
    /\ friend_messages o friends all_msgs sent
    /\ (friends <> [] \/ msgs = [] -> r = Ok tt).
Proof.
  induction msgs as [|fm msgs IH]; intros w r w' Hfr Hsub; cbn [for_each].
  - unfold ret. intros [= <- <-]. exists []. rewrite app_nil_r.
    repeat split; constructor.
  - unfold bind at 1.
    match goal with
    | |- context [let (_, _) := ?c w in _] => destruct (c w) as [r1 w1] eqn:Hentry
    end.
    destruct (message_entry o friends fm w r1 w1 Hfr Hentry)
      as (sent1 & Hc1 & Hi1 & Ho1 & Hs1 & Hok1).
    assert (Hsent1 : friend_messages o friends all_msgs sent1).
    { eapply Forall_impl; [exact Hs1|]. intros m (? & ? & Ht). repeat split; auto.
      rewrite Ht. apply list_elem_of_fmap. exists fm. split; [reflexivity|].
      apply Hsub. now left. }
    destruct r1 as [[]|e].
    + intros Hrest.
      destruct (IH w1 r w') as (sent2 & Hc2 & Hi2 & Ho2 & Hs2 & Hok2); try exact Hrest.
      * rewrite <- Hfr. now apply eligible_friends_cast.
      * intros fm' Hin. apply Hsub. now right.
      * exists (sent1 ++ sent2).
        split; [eapply same_cast_trans; eassumption|].
        split; [congruence|].
        split; [rewrite Ho2, Ho1; now rewrite app_assoc|].
        split; [now apply Forall_app|].
        intros [Hne|Hnil]; [|discriminate]. apply Hok2. now left.
    + intros [= <- <-]. exists sent1.
      split; [exact Hc1|]. split; [exact Hi1|]. split; [exact Ho1|].
      split; [exact Hsent1|].
      intros [Hne|Hnil]; [|discriminate]. specialize (Hok1 Hne). discriminate.
Qed.

(** The distribution as a whole. *)
Lemma distribute_items_messages cat clicker w r w' :
  _distribute_items cat clicker w = (r, w') ->
  exists sent,
    same_cast w w'
    /\ outbox w' = outbox w ++ sent
    /\ friend_messages (owner (this w)) (eligible_friends w)
                       (cat_message cat (item (this w))) sent
    /\ (is_ok (fst (pay clicker (cat_execution_cost cat (item (this w))) (inventory w)))
        = true ->
        eligible_friends w <> [] \/ cat_message cat (item (this w)) = [] ->
        r = Ok (last (cat_guest_yield cat (item (this w))))).
Proof.
  unfold _distribute_items, bind at 1, self at 1.
  unfold bind at 1. rewrite pay_eq.
  set (w1 := with_inventory _ w).
  assert (Hc1 : same_cast w w1) by now repeat split.
  destruct (fst (pay clicker _ (inventory w))) as [[]|e].
  2: { intros [= <- <-]. exists []. rewrite app_nil_r. split; [exact Hc1|].
       split; [reflexivity|]. split; [constructor | discriminate]. }
  destruct (reward_loop_ok clicker (cat_guest_yield cat (item (this w))) w1)
    as (w2 & Hguest & Hs2).
  unfold bind at 1. rewrite Hguest.
  destruct (reward_loop_ok (owner (this w)) (cat_owner_yield cat (item (this w))) w2)
    as (w3 & Howner & Hs3).
  unfold bind at 1. rewrite Howner.
  assert (Hc3 : same_cast w w3).
  { eapply same_cast_trans; [exact Hc1|].
    eapply same_cast_trans; apply same_people_cast; eassumption. }
  assert (Ho3 : outbox w3 = outbox w).
  { destruct Hs2 as (_ & _ & _ & _ & Ho2), Hs3 as (_ & _ & _ & _ & Ho3).
    now rewrite Ho3, Ho2. }
  unfold bind at 1.
  match goal with
  | |- context [for_each ?body ?l w3] => destruct (for_each body l w3) as [r4 w4] eqn:Hloop
  end.
  destruct (message_loop _ (eligible_friends w) (cat_message cat (item (this w))) _ _ _ _
              (eligible_friends_cast _ _ Hc3) (fun _ H => H) Hloop)
    as (sent & Hcast & _ & Hout & Hsent & Hok).
  destruct r4 as [[]|e]; intros [= <- <-]; exists sent.
  - split; [eapply same_cast_trans; eassumption|].
    split; [now rewrite Hout, Ho3|]. split; [exact Hsent | reflexivity].
  - split; [eapply same_cast_trans; eassumption|].
    split; [now rewrite Hout, Ho3|]. split; [exact Hsent|].
    intros _ Hfr. specialize (Hok Hfr). discriminate.
Qed.

Lemma bind_assoc {A B C} (c : M A) (k : A -> M B) (h : B -> M C) w :
  bind (bind c k) h w = bind c (fun a => bind (k a) h) w.
Proof. unfold bind. now destruct (c w) as [[a|e] w1]. Qed.

Lemma click_rewards_eq cat clicker w :
  click_rewards cat clicker w
  = match _distribute_items cat clicker w with
    | (Ok guest_yield, w2) =>
        match consume_setup cat w2 with
        | (Ok _, w3) => (Ok guest_yield, w3)
        | (Err e, w3) => (Err e, w3)
        end
    | (Err e, w2) => (Err e, w2)
    end.
Proof.
  unfold click_rewards, bind at 1.
  destruct (_distribute_items cat clicker w) as [[gy|e] w2]; [|reflexivity].
  transitivity (bind (consume_setup cat) (fun _ => ret gy) w2).
  - unfold consume_setup. symmetry. apply bind_assoc.
  - unfold bind. now destruct (consume_setup cat w2) as [[[]|e] w3].
Qed.

Lemma consume_setup_eq cat w :
  consume_setup cat w
  = if truthy (is_setup (this w)) then
      match profiles w !! owner (this w) with
      | None => (Err DoesNotExist, w)
      | Some p =>
          if is_networker p then (Ok tt, w)
          else save cat (with_this (set_is_setup (Some false) (this w)) w)
      end
    else (Ok tt, w).
Proof.
  unfold consume_setup, bind at 1, self.
  destruct (truthy (is_setup (this w))); [|reflexivity].
  unfold bind at 1, profile_of.
  destruct (profiles w !! owner (this w)) as [p|]; [|reflexivity].
  now destruct (is_networker p).
Qed.

Lemma keeps_outbox_consume_setup cat : keeps outbox (consume_setup cat).
Proof. unfold consume_setup. keeps_all. Qed.

Lemma keeps_outbox_save cat : keeps outbox (save cat).
Proof. keeps_all. Qed.

(** X5: whatever a click does, every message it sends goes from the owner of
    the module to one of the owner's eligible friends (an accepted
    friendship, in either direction, with a user who is not a networker) and
    carries the template of one of the module's message entries; messages
    already sent are never altered. *)
Theorem click_messages_go_to_friends cat clicker w :
  exists sent,
    outbox (snd (click cat clicker w)) = outbox w ++ sent
    /\ friend_messages (owner (this w)) (eligible_friends w)
                       (cat_message cat (item (this w))) sent.
Proof.
  assert (Hnone : forall w', outbox w' = outbox w ->
            exists sent, outbox w' = outbox w ++ sent
              /\ friend_messages (owner (this w)) (eligible_friends w)
                                 (cat_message cat (item (this w))) sent).
  { intros w' ->. exists []. rewrite app_nil_r. split; [reflexivity | constructor]. }
  rewrite click_split. unfold bind. rewrite update_clicks_eq.
  destruct (bool_decide (clicker = owner (this w))); [now apply Hnone|].
  destruct (profiles w !! clicker) as [p|] eqn:Hp; [|now apply Hnone].
  destruct (available_votes p <=? 0); [now apply Hnone|].
  destruct (is_clickable (this w)) eqn:Hclick; cbn [negb]; [|now apply Hnone].
  rewrite save_eq.
  destruct (cat_info cat (item (this (voted clicker p w)))) as [info|]; [|now apply Hnone].
  rewrite click_rewards_eq.
  destruct (_distribute_items cat clicker (saved cat info (voted clicker p w)))
    as [r w2] eqn:Hdist.
  destruct (distribute_items_messages _ _ _ _ _ Hdist) as (sent & _ & Hout & Hsent & _).
  assert (Hfr : eligible_friends (saved cat info (voted clicker p w)) = eligible_friends w).
  { apply eligible_friends_same.
    - now rewrite saved_voted by exact Hclick.
    - now rewrite saved_voted by exact Hclick.
    - intros u. now apply voted_plain_user. }
  rewrite Hfr in Hsent. rewrite saved_voted in Hsent, Hout by exact Hclick.
  cbn in Hsent, Hout.
  assert (Hend : outbox (snd (match r with
                              | Ok guest_yield =>
                                  match consume_setup cat w2 with
                                  | (Ok _, w3) => (Ok guest_yield, w3)
                                  | (Err e, w3) => (Err e, w3)
                                  end
                              | Err e => (Err e, w2)
                              end)) = outbox w2).
  { destruct r as [gy|e]; [|reflexivity].
    pose proof (keeps_outbox_consume_setup cat w2) as Hk.
    now destruct (consume_setup cat w2) as [[[]|e] w3]. }
  exists sent. rewrite Hend. split; [exact Hout | exact Hsent].
Qed.

(** A click that meets no obstacle. *)
Lemma click_success cat clicker w p info :
  clicker <> owner (this w) ->
  profiles w !! clicker = Some p ->
  0 < available_votes p ->
  is_clickable (this w) = true ->
  cat_info cat (item (this w)) = Some info ->
  is_ok (fst (pay clicker (cat_execution_cost cat (item (this w))) (inventory w))) = true ->
  eligible_friends w <> [] \/ cat_message cat (item (this w)) = [] ->
  (is_setup (this w) = Some true -> is_Some (profiles w !! owner (this w))) ->
  exists w',
    click cat clicker w = (Ok (last (cat_guest_yield cat (item (this w)))), w')
    /\ rows w' !! pk (this w) = Some (this w')
    /\ is_setup (this w') = after_click_setup cat info w.
Proof.
  intros Hne Hp Hvotes Hclick Hinfo Hpay Hfriends Howner.
  rewrite click_split.
  rewrite (bind_ok _ _ _ _ _ (update_clicks_ok cat clicker w p info Hne Hp Hvotes Hclick Hinfo)).
  rewrite click_rewards_eq, saved_voted by exact Hclick.
  set (w1 := with_rows _ (voted clicker p w)).
  destruct (_distribute_items cat clicker w1) as [r w2] eqn:Hdist.
  destruct (distribute_items_messages _ _ _ _ _ Hdist) as (sent & Hcast & _ & _ & Hok).
  assert (Hfr : eligible_friends w1 = eligible_friends w).
  { unfold w1. rewrite <- (saved_voted cat clicker p info w Hclick).
    apply eligible_friends_same.
    - now rewrite saved_voted by exact Hclick.
    - now rewrite saved_voted by exact Hclick.
    - intros u. now apply voted_plain_user. }
  rewrite Hfr in Hok. specialize (Hok Hpay Hfriends). subst r.
  destruct Hcast as (Ht2 & Hr2 & Hp2 & _).
  assert (Hthis : this w2 = this (voted clicker p w)) by exact Ht2.
  assert (Hset : is_setup (this w2) = is_setup (this w)) by now rewrite Hthis.
  assert (Hown : owner (this w2) = owner (this w)) by now rewrite Hthis.
  assert (Hpk : pk (this w2) = pk (this w)) by now rewrite Hthis.
  assert (Hit : item (this w2) = item (this w)) by now rewrite Hthis.
  assert (Hprof : profiles w2 !! owner (this w) = profiles w !! owner (this w)).
  { rewrite Hp2. subst w1. cbn. now rewrite lookup_insert_ne. }
  assert (Hrow : rows w2 !! pk (this w) = Some (this w2)).
  { rewrite Hr2, Hthis. subst w1. cbn. apply lookup_insert_eq. }
  rewrite consume_setup_eq, Hset, Hown, Hprof.
  unfold after_click_setup, is_plain_user.
  destruct (is_setup (this w)) as [[|]|] eqn:Hstate; cbn [truthy andb].
  - destruct (Howner eq_refl) as [po Hpo]. rewrite Hpo.
    destruct (is_networker po); cbn [negb].
    + eexists. split; [reflexivity|]. split; [exact Hrow | exact Hset].
    + rewrite save_eq. cbn [this with_this item set_is_setup]. rewrite Hit, Hinfo.
      eexists. split; [reflexivity|]. unfold saved, normalized, setupable.
      cbn. rewrite Hit, <- Hpk.
      destruct (bool_decide (editor_type info = Some TRADE)
                || has_rows (cat_setup_cost cat (item (this w)))); cbn;
        (split; [apply lookup_insert_eq | reflexivity]).
  - eexists. split; [reflexivity|]. split; [exact Hrow | exact Hset].
  - eexists. split; [reflexivity|]. split; [exact Hrow | exact Hset].
Qed.

(** X6: a click goes through when the visitor is admitted, the module has
    its catalog entry, the visitor can pay the execution cost, the module
    sends no messages or its owner has an eligible friend, and the owner of
    a set-up module has a profile.  It returns the last entry of the guest
    yield table (nothing for an empty table), whether or not that entry's
    roll hit, and the stored row of the module is the object as the click
    left it. *)
Theorem click_returns_last_guest_yield cat clicker w p info :
  clicker <> owner (this w) ->
  profiles w !! clicker = Some p ->
  0 < available_votes p ->
  is_clickable (this w) = true ->
  cat_info cat (item (this w)) = Some info ->
  is_ok (fst (pay clicker (cat_execution_cost cat (item (this w))) (inventory w))) = true ->
  eligible_friends w <> [] \/ cat_message cat (item (this w)) = [] ->
  (is_setup (this w) = Some true -> is_Some (profiles w !! owner (this w))) ->
  fst (click cat clicker w) = Ok (last (cat_guest_yield cat (item (this w))))
  /\ rows (snd (click cat clicker w)) !! pk (this w)
     = Some (this (snd (click cat clicker w))).
Proof.
  intros Hne Hp Hvotes Hclick Hinfo Hpay Hfriends Howner.
  destruct (click_success cat clicker w p info Hne Hp Hvotes Hclick Hinfo Hpay Hfriends Howner)
    as (w' & -> & Hrow & _).
  split; [reflexivity | exact Hrow].
Qed.

Lemma bind_ok_inv {A B} (c : M A) (k : A -> M B) w b w' :
  bind c k w = (Ok b, w') -> exists a w1, c w = (Ok a, w1) /\ k a w1 = (Ok b, w').
Proof. unfold bind. destruct (c w) as [[a|e] w1]; [eauto | discriminate]. Qed.

(** What the distribution returns when it returns. *)
Lemma distribute_items_result cat clicker w gy w' :
  _distribute_items cat clicker w = (Ok gy, w') ->
  gy = last (cat_guest_yield cat (item (this w))).
Proof.
  unfold _distribute_items. intros H.
  apply bind_ok_inv in H as (m & w0 & Hself & H).
  unfold self in Hself. injection Hself as <- <-.
  do 4 (apply bind_ok_inv in H as (? & ? & _ & H)).
  unfold ret in H. now injection H as <- _.
Qed.

(** A click that returned: what it went through. *)
Lemma click_ok_inv cat clicker w r w' :
  click cat clicker w = (Ok r, w') ->
  exists info,
    cat_info cat (item (this w)) = Some info
    /\ r = last (cat_guest_yield cat (item (this w)))
    /\ rows w' !! pk (this w) = Some (this w')
    /\ is_setup (this w') = after_click_setup cat info w.
Proof.
  rewrite click_split. intros H.
  apply bind_ok_inv in H as ([] & w1 & Hupd & H).
  rewrite update_clicks_eq in Hupd.
  destruct (bool_decide (clicker = owner (this w))) eqn:Hne; [discriminate|].
  apply bool_decide_eq_false in Hne.
  destruct (profiles w !! clicker) as [p|] eqn:Hp; [|discriminate].
  destruct (available_votes p <=? 0); [discriminate|].
  destruct (is_clickable (this w)) eqn:Hclick; cbn [negb] in Hupd; [|discriminate].
  rewrite save_eq in Hupd.
  change (item (this (voted clicker p w))) with (item (this w)) in Hupd.
  destruct (cat_info cat (item (this w))) as [info|] eqn:Hinfo; [|discriminate].
  injection Hupd as <-. exists info. split; [reflexivity|].
  rewrite click_rewards_eq, saved_voted in H by exact Hclick.
  set (w1 := with_rows _ (voted clicker p w)) in H.
  destruct (_distribute_items cat clicker w1) as [[gy|e] w2] eqn:Hdist; [|discriminate].
  pose proof (distribute_items_result _ _ _ _ _ Hdist) as Hgy.
  change (item (this w1)) with (item (this w)) in Hgy.
  destruct (distribute_items_messages _ _ _ _ _ Hdist) as (sent & Hcast & _).
  destruct Hcast as (Ht2 & Hr2 & Hp2 & _).
  assert (Hthis : this w2 = this (voted clicker p w)) by exact Ht2.
  assert (Hset : is_setup (this w2) = is_setup (this w)) by now rewrite Hthis.
  assert (Hown : owner (this w2) = owner (this w)) by now rewrite Hthis.
  assert (Hpk : pk (this w2) = pk (this w)) by now rewrite Hthis.
  assert (Hit : item (this w2) = item (this w)) by now rewrite Hthis.
  assert (Hprof : profiles w2 !! owner (this w) = profiles w !! owner (this w)).
  { rewrite Hp2. subst w1. cbn. now rewrite lookup_insert_ne. }
  assert (Hrow : rows w2 !! pk (this w) = Some (this w2)).
  { rewrite Hr2, Hthis. subst w1. cbn. apply lookup_insert_eq. }
  rewrite consume_setup_eq, Hset, Hown, Hprof in H.
  unfold after_click_setup, is_plain_user.
  destruct (is_setup (this w)) as [[|]|] eqn:Hstate; cbn [truthy andb] in *.
  - destruct (profiles w !! owner (this w)) as [po|]; [|discriminate].
    destruct (is_networker po); cbn [negb].
    + injection H as <- <-. split; [exact Hgy|]. split; [exact Hrow | exact Hset].
    + rewrite save_eq in H. cbn [this with_this item set_is_setup] in H.
      rewrite Hit, Hinfo in H. injection H as <- <-. split; [exact Hgy|].
      unfold saved, normalized, setupable.
      cbn. rewrite Hit, <- Hpk.
      destruct (bool_decide (editor_type info = Some TRADE)
                || has_rows (cat_setup_cost cat (item (this w)))); cbn;
        (split; [apply lookup_insert_eq | reflexivity]).
  - injection H as <- <-. split; [exact Hgy|]. split; [exact Hrow | exact Hset].
  - injection H as <- <-. split; [exact Hgy|]. split; [exact Hrow | exact Hset].
Qed.

(** X7: a click that returns uses up the setup of a module whose owner is
    not a networker: the module has its catalog entry, and if it was set up
    it comes out in the needs-setup state (in the not-applicable state if
    its item has no setup requirement).  The module of a networker stays set
    up, and a module that was not set up keeps its state. *)
Theorem click_consumes_setup cat clicker w :
  is_ok (fst (click cat clicker w)) = true ->
  exists info,
    cat_info cat (item (this w)) = Some info
    /\ is_setup (this (snd (click cat clicker w)))
       = if truthy (is_setup (this w)) && is_plain_user w (owner (this w)) then
           if setupable cat (this w) info then Some false else None
         else is_setup (this w).
Proof.
  intros Hok.
  destruct (click cat clicker w) as [[r|e] w'] eqn:Hclick; [|discriminate].
  destruct (click_ok_inv cat clicker w r w' Hclick) as (info & Hinfo & _ & _ & Hset).
  exists info. split; [exact Hinfo | exact Hset].
Qed.

Lemma click_returns_last_guest_yield_witness :
  fst (click sample_catalog 200 sample_visit_world) = Ok None.
Proof.
  apply (click_returns_last_guest_yield sample_catalog 200 sample_visit_world
           (Build_Profile 5 false) {| editor_type := Some GENERIC |});
    [discriminate | reflexivity | reflexivity | reflexivity | reflexivity | reflexivity
    | now right | intros _; now eexists].
Defined.

Lemma click_consumes_setup_witness :
  is_setup (this (snd (click sample_catalog 200 sample_visit_world))) = Some false.
Proof.
  destruct (click_consumes_setup sample_catalog 200 sample_visit_world)
    as (info & Hinfo & Hset); [reflexivity|].
  rewrite Hset. injection Hinfo as <-. reflexivity.
Defined.

(** ** Harvesting and the preview *)

Lemma time_part_eq since yi :
  0 <= yield_per_day yi < 172800000000 ->
  time_part since yi = Ok (time_yield since yi, time_left since yi).
Proof.
  intros Hn. unfold time_part, time_yield, time_left, py_divmod.
  destruct (Z.eqb_spec (yield_per_day yi) 0) as [_|Hne]; [reflexivity|].
  pose proof (day_fraction_pos (yield_per_day yi) ltac:(lia)) as Hpos.
  now rewrite (proj2 (Z.eqb_neq _ 0)) by lia.
Qed.

Lemma click_part_eq clicks yi :
  click_part clicks yi = (click_yield clicks yi, clicks_left clicks yi).
Proof.
  unfold click_part, click_yield, clicks_left. now destruct (clicks_per_yield yi =? 0).
Qed.

(** A harvest that gets to the accrual. *)
Lemma harvest_success cat w info yi :
  cat_info cat (item (this w)) = Some info ->
  setup_pending cat (this w) info = false ->
  cat_harvest_yield cat (item (this w)) = Some yi ->
  0 <= yield_per_day yi < 172800000000 ->
  let since := clock w (ticks w) - last_harvest_time (this w) in
  let clicks := clicks_since_last_harvest (this w) in
  harvest cat w
  = (Ok tt,
     saved cat info
       (with_this
          (set_is_setup (Some false)
             (set_clicks_since_last_harvest (clicks_left clicks yi)
                (set_last_harvest_time (clock w (S (ticks w)) - time_left since yi)
                   (this w))))
          (with_ticks (S (S (ticks w)))
             (credited (owner (this w)) (yield_item_id yi) (accrued since clicks yi) w)))).
Proof.
  intros Hinfo Hgate Hyi Hypd. cbn zeta.
  rewrite harvest_eq, Hinfo, Hyi, Hgate, time_part_eq by exact Hypd.
  cbn zeta. now rewrite click_part_eq.
Qed.

(** X8: a harvest of a module that is set up, or needs no setup, with a
    yield configuration, goes through: the owner's stack of the yielded item
    grows by exactly min(time_yield + click_yield, max_yield) and no other
    stack changes; the module comes out not set up and stored; and
    [total_clicks], the lifetime counter, is not reset. *)
Theorem harvest_credits_owner cat w info yi :
  cat_info cat (item (this w)) = Some info ->
  setup_pending cat (this w) info = false ->
  cat_harvest_yield cat (item (this w)) = Some yi ->
  0 <= yield_per_day yi < 172800000000 ->
  let qty := accrued (clock w (ticks w) - last_harvest_time (this w))
                     (clicks_since_last_harvest (this w)) yi in
  exists w',
    harvest cat w = (Ok tt, w')
    /\ (forall u i,
          qty_of (inventory w') u i
          = qty_of (inventory w) u i
            + if bool_decide ((owner (this w), yield_item_id yi) = (u, i)) then qty else 0)
    /\ is_setup (this w') = (if setupable cat (this w) info then Some false else None)
    /\ total_clicks (this w') = total_clicks (this w)
    /\ rows w' !! pk (this w) = Some (this w').
Proof.
  intros Hinfo Hgate Hyi Hypd. cbn zeta.
  rewrite (harvest_success cat w info yi Hinfo Hgate Hyi Hypd). cbn zeta.
  eexists. split; [reflexivity|].
  unfold saved, normalized, setupable, credited. cbn.
  split; [|split; [|split]].
  - intros u i. rewrite qty_of_insert.
    case_bool_decide as Heq; [injection Heq as <- <-|]; lia.
  - now destruct (bool_decide (editor_type info = Some TRADE)
                  || has_rows (cat_setup_cost cat (item (this w)))).
  - now destruct (negb _ && _).
  - destruct (negb _ && _); cbn; apply lookup_insert_eq.
Qed.

(** X9: a harvest carries over what did not make a whole unit.  Afterwards
    [clicks_since_last_harvest] is the remainder of the clicks by
    [clicks_per_yield] (all of them for a rate of 0), so the clicks counted
    in the yield and the clicks carried over add up to the clicks there were;
    and the harvest clock is set back from the second reading of the time by
    the remainder of the elapsed time, which is less than one yield period. *)
Theorem harvest_carries_remainders cat w info yi :
  cat_info cat (item (this w)) = Some info ->
  setup_pending cat (this w) info = false ->
  cat_harvest_yield cat (item (this w)) = Some yi ->
  0 <= yield_per_day yi < 172800000000 ->
  0 <= clicks_per_yield yi ->
  let since := clock w (ticks w) - last_harvest_time (this w) in
  let clicks := clicks_since_last_harvest (this w) in
  let period := td_truediv DAY (yield_per_day yi) in
  let w' := snd (harvest cat w) in
  clicks_since_last_harvest (this w') = clicks_left clicks yi
  /\ click_yield clicks yi * clicks_per_yield yi + clicks_left clicks yi = clicks
  /\ (0 < clicks_per_yield yi -> 0 <= clicks_left clicks yi < clicks_per_yield yi)
  /\ last_harvest_time (this w') = clock w (S (ticks w)) - time_left since yi
  /\ time_yield since yi * (if yield_per_day yi =? 0 then 0 else period)
     + time_left since yi = since
  /\ (0 < yield_per_day yi -> 0 <= time_left since yi < period).
Proof.
  intros Hinfo Hgate Hyi Hypd Hcpy. cbn zeta.
  rewrite (harvest_success cat w info yi Hinfo Hgate Hyi Hypd). cbn zeta.
  unfold saved, normalized. cbn [snd this with_this with_rows].
  assert (Hc : forall m, clicks_since_last_harvest (if negb (setupable cat m info)
                 && bool_decide (is_setup m = Some false) then set_is_setup None m else m)
               = clicks_since_last_harvest m) by (intros m; now destruct (_ && _)).
  assert (Ht : forall m, last_harvest_time (if negb (setupable cat m info)
                 && bool_decide (is_setup m = Some false) then set_is_setup None m else m)
               = last_harvest_time m) by (intros m; now destruct (_ && _)).
  rewrite Hc, Ht. cbn.
  unfold click_yield, clicks_left, time_yield, time_left.
  split; [reflexivity|]. split; [|split; [|split; [reflexivity|split]]].
  - destruct (Z.eqb_spec (clicks_per_yield yi) 0) as [->|Hne]; [lia|].
    rewrite (Z.mul_comm _ (clicks_per_yield yi)). symmetry. apply Z.div_mod. exact Hne.
  - intros Hpos. rewrite (proj2 (Z.eqb_neq _ 0)) by lia. apply Z.mod_pos_bound. exact Hpos.
  - destruct (Z.eqb_spec (yield_per_day yi) 0) as [_|Hne]; [lia|].
    pose proof (day_fraction_pos (yield_per_day yi) ltac:(lia)) as Hpos.
    rewrite (Z.mul_comm _ (td_truediv _ _)). symmetry. apply Z.div_mod. lia.
  - intros Hpos. rewrite (proj2 (Z.eqb_neq _ 0)) by lia.
    apply Z.mod_pos_bound. apply day_fraction_pos. lia.
Qed.

Lemma time_left_spent since yi :
  0 <= yield_per_day yi < 172800000000 ->
  time_yield (time_left since yi) yi = 0.
Proof.
  intros Hn. unfold time_yield, time_left.
  destruct (Z.eqb_spec (yield_per_day yi) 0) as [_|Hne]; [reflexivity|].
  pose proof (day_fraction_pos (yield_per_day yi) ltac:(lia)) as Hpos.
  apply Z.div_small, Z.mod_pos_bound. exact Hpos.
Qed.

Lemma clicks_left_spent clicks yi :
  0 <= clicks_per_yield yi ->
  click_yield (clicks_left clicks yi) yi = 0.
Proof.
  intros Hn. unfold click_yield, clicks_left.
  destruct (Z.eqb_spec (clicks_per_yield yi) 0) as [_|Hne]; [reflexivity|].
  apply Z.div_small, Z.mod_pos_bound. lia.
Qed.

(** Why the rate is bounded: from 172800000000 units a day on, the time per
    unit, one day over the rate rounded half to even, is zero microseconds,
    and the calculator divides by it. *)
Lemma harvest_rate_too_high cat w info yi :
  cat_info cat (item (this w)) = Some info ->
  setup_pending cat (this w) info = false ->
  cat_harvest_yield cat (item (this w)) = Some yi ->
  172800000000 <= yield_per_day yi ->
  fst (harvest cat w) = Err ZeroDivisionError.
Proof.
  intros Hinfo Hpend Hyi Hrate.
  rewrite harvest_eq, Hinfo, Hyi, Hpend.
  assert (Hzero : td_truediv DAY (yield_per_day yi) = 0).
  { unfold td_truediv, divide_and_round, DAY.
    rewrite Z.div_small, Z.mod_small by lia. cbn zeta.
    rewrite (proj2 (Z.ltb_lt _ _)) by lia.
    rewrite (proj2 (Z.ltb_ge _ _)) by lia.
    change (0 mod 2 =? 1) with false. now rewrite andb_false_r. }
  unfold time_part. rewrite (proj2 (Z.eqb_neq _ _)) by lia.
  rewrite Hzero. reflexivity.
Qed.

(** X10: nothing can be harvested twice.  For a module without setup
    requirement and a yield configuration with non-negative fields whose
    [yield_per_day] is below 172800000000 (from that rate on the time per
    unit rounds to zero microseconds and [harvest] raises
    [ZeroDivisionError]), a second harvest right after the first, before the
    clock moves on, goes through and credits nothing: every inventory
    quantity is what the first harvest left. *)
Theorem harvest_twice_credits_once cat w info yi :
  cat_info cat (item (this w)) = Some info ->
  setupable cat (this w) info = false ->
  cat_harvest_yield cat (item (this w)) = Some yi ->
  0 <= yield_per_day yi < 172800000000 ->
  0 <= clicks_per_yield yi ->
  0 <= max_yield yi ->
  clock w (S (S (ticks w))) = clock w (S (ticks w)) ->
  exists w1 w2,
    harvest cat w = (Ok tt, w1)
    /\ harvest cat w1 = (Ok tt, w2)
    /\ forall u i, qty_of (inventory w2) u i = qty_of (inventory w1) u i.
Proof.
  intros Hinfo Hno Hyi Hypd Hcpy Hmax Hclock.
  assert (Hgate : forall m, item m = item (this w) -> setup_pending cat m info = false).
  { intros m Hm. unfold setup_pending, setupable in *. now rewrite Hm, Hno. }
  rewrite (harvest_success cat w info yi Hinfo (Hgate _ eq_refl) Hyi Hypd). cbn zeta.
  set (w1 := saved cat info _).
  assert (Hitem : item (this w1) = item (this w)).
  { subst w1. unfold saved, normalized. cbn. now destruct (negb _ && _). }
  assert (Hlht : last_harvest_time (this w1)
                 = clock w (S (ticks w))
                   - time_left (clock w (ticks w) - last_harvest_time (this w)) yi).
  { subst w1. unfold saved, normalized. cbn. now destruct (negb _ && _). }
  assert (Hcl : clicks_since_last_harvest (this w1)
                = clicks_left (clicks_since_last_harvest (this w)) yi).
  { subst w1. unfold saved, normalized. cbn. now destruct (negb _ && _). }
  assert (Hnow : clock w1 (ticks w1) = clock w (S (S (ticks w)))) by reflexivity.
  exists w1. eexists. split; [reflexivity|].
  rewrite (harvest_success cat w1 info yi); try assumption.
  2: now rewrite Hitem. 2: now apply Hgate. 2: now rewrite Hitem.
  split; [reflexivity|]. intros u i.
  unfold saved, credited. cbn [inventory with_rows with_this with_ticks with_inventory].
  rewrite qty_of_insert. case_bool_decide as Heq; [|reflexivity].
  replace (qty_of (inventory w1) u i)
    with (qty_of (inventory w1) (owner (this w1)) (yield_item_id yi))
    by (now injection Heq as <- <-).
  rewrite Hnow, Hclock, Hlht, Hcl. unfold accrued.
  replace (clock w (S (ticks w))
           - (clock w (S (ticks w))
              - time_left (clock w (ticks w) - last_harvest_time (this w)) yi))
    with (time_left (clock w (ticks w) - last_harvest_time (this w)) yi) by lia.
  rewrite time_left_spent, clicks_left_spent by assumption. lia.
Qed.

Lemma calc_yield_qty_eq cat w :
  calc_yield_qty cat w
  = match _calc_yield_info cat w with
    | (Ok r, w1) => (Ok (fst (fst r)), w1)
    | (Err e, w1) => (Err e, w1)
    end.
Proof.
  unfold calc_yield_qty, bind. now destruct (_calc_yield_info cat w) as [[r|e] w1].
Qed.

Lemma preview_frame cat w :
  same_people w (snd (calc_yield_qty cat w))
  /\ inventory (snd (calc_yield_qty cat w)) = inventory w.
Proof.
  assert (H1 : keeps this (calc_yield_qty cat)) by keeps_all.
  assert (H2 : keeps rows (calc_yield_qty cat)) by keeps_all.
  assert (H3 : keeps profiles (calc_yield_qty cat)) by keeps_all.
  assert (H4 : keeps friendships (calc_yield_qty cat)) by keeps_all.
  assert (H5 : keeps outbox (calc_yield_qty cat)) by keeps_all.
  assert (H6 : keeps inventory (calc_yield_qty cat)) by keeps_all.
  repeat split; [apply H1 | apply H2 | apply H3 | apply H4 | apply H5 | apply H6].
Qed.

(** X11: the preview [calc_yield_qty] is a pure reading: it changes neither
    the module, its row, any inventory, any profile nor the outbox.  And it
    tells what a harvest gives: whenever a harvest started in the same world
    goes through, the owner's stack of the yielded item grows by exactly the
    quantity the preview reports there. *)
Theorem preview_agrees_with_harvest cat w w' :
  harvest cat w = (Ok tt, w') ->
  same_people w (snd (calc_yield_qty cat w))
  /\ inventory (snd (calc_yield_qty cat w)) = inventory w
  /\ exists qty yi,
       cat_harvest_yield cat (item (this w)) = Some yi
       /\ fst (calc_yield_qty cat w) = Ok qty
       /\ qty_of (inventory w') (owner (this w)) (yield_item_id yi)
          = qty_of (inventory w) (owner (this w)) (yield_item_id yi) + qty.
Proof.
  intros Hh. destruct (preview_frame cat w) as [Hs Hi].
  split; [exact Hs|]. split; [exact Hi|].
  revert Hh. rewrite harvest_eq, calc_yield_qty_eq, calc_yield_info_eq.
  destruct (cat_info cat (item (this w))) as [info|]; [|discriminate].
  destruct (cat_harvest_yield cat (item (this w))) as [yi|]; [|discriminate].
  destruct (setup_pending cat (this w) info); [discriminate|].
  destruct (time_part _ yi) as [[ty tr]|e]; [|discriminate].
  cbn zeta. intros [= <-]. eexists. exists yi.
  split; [reflexivity|]. split; [reflexivity|].
  unfold saved, credited. cbn. rewrite qty_of_insert.
  now rewrite bool_decide_eq_true_2.
Qed.

Lemma time_yield_mono s s' yi :
  0 <= yield_per_day yi < 172800000000 -> s <= s' ->
  time_yield s yi <= time_yield s' yi.
Proof.
  intros Hn Hs. unfold time_yield.
  destruct (Z.eqb_spec (yield_per_day yi) 0) as [_|Hne]; [lia|].
  apply Z.div_le_mono; [|exact Hs]. apply day_fraction_pos. lia.
Qed.

Lemma click_yield_mono c c' yi :
  0 <= clicks_per_yield yi -> c <= c' ->
  click_yield c yi <= click_yield c' yi.
Proof.
  intros Hn Hc. unfold click_yield.
  destruct (Z.eqb_spec (clicks_per_yield yi) 0) as [_|Hne]; [lia|].
  apply Z.div_le_mono; lia.
Qed.

(** X12: waiting and being clicked never lower the preview.  For a module
    seen in two worlds with the same item, setup state and harvest clock,
    the second with a later (or equal) reading of the time and at least as
    many clicks since the last harvest, under a configuration with
    non-negative rates, both previews return and the second is at least the
    first. *)
Theorem preview_never_decreases cat w w' info yi :
  cat_info cat (item (this w)) = Some info ->
  cat_harvest_yield cat (item (this w)) = Some yi ->
  0 <= yield_per_day yi < 172800000000 ->
  0 <= clicks_per_yield yi ->
  item (this w') = item (this w) ->
  is_setup (this w') = is_setup (this w) ->
  last_harvest_time (this w') = last_harvest_time (this w) ->
  clock w (ticks w) <= clock w' (ticks w') ->
  clicks_since_last_harvest (this w) <= clicks_since_last_harvest (this w') ->
  exists q q',
    fst (calc_yield_qty cat w) = Ok q
    /\ fst (calc_yield_qty cat w') = Ok q'
    /\ q <= q'.
Proof.
  intros Hinfo Hyi Hypd Hcpy Hitem Hset Hlht Hclock Hclicks.
  rewrite !calc_yield_qty_eq, !calc_yield_info_eq, Hitem, Hinfo, Hyi.
  assert (Hgate : setup_pending cat (this w') info = setup_pending cat (this w) info).
  { unfold setup_pending, setupable. now rewrite Hitem, Hset. }
  rewrite Hgate. destruct (setup_pending cat (this w) info).
  - exists 0, 0. now repeat split.
  - rewrite !time_part_eq by exact Hypd. cbn zeta. rewrite !click_part_eq. cbn [fst snd].
    eexists. eexists. split; [reflexivity|]. split; [reflexivity|].
    pose proof (time_yield_mono (clock w (ticks w) - last_harvest_time (this w))
                  (clock w' (ticks w') - last_harvest_time (this w')) yi Hypd ltac:(lia)).
    pose proof (click_yield_mono _ _ yi Hcpy Hclicks).
    lia.
Qed.

(** ** Teardown and save *)

Lemma with_this_id w : with_this (this w) w = w.
Proof. now destruct w. Qed.

Lemma with_rows_id w : with_rows (rows w) w = w.
Proof. now destruct w. Qed.

Lemma save_stored cat info w :
  cat_info cat (item (this w)) = Some info ->
  rows w !! pk (this w) = Some (this w) ->
  normalized cat info (this w) = this w ->
  save cat w = (Ok tt, w).
Proof.
  intros Hinfo Hrow Hnorm. rewrite save_eq, Hinfo. unfold saved. cbn zeta.
  rewrite Hnorm, insert_id by exact Hrow.
  now rewrite with_this_id, with_rows_id.
Qed.

Lemma normalized_idem cat info m :
  normalized cat info (normalized cat info m) = normalized cat info m.
Proof.
  unfold normalized, setupable.
  destruct (negb _ && bool_decide (is_setup m = Some false)) eqn:H; [|now rewrite H].
  cbn. now rewrite andb_false_r.
Qed.

(** X13: [save] stores the object under its key and is idempotent.  With a
    catalog entry it returns, the row found under the module's key is then
    the object in memory, every other row is as before, the object differs
    from the one saved at most by [is_setup] having gone from [False] to
    [None], and saving again changes nothing.  Without a catalog entry it
    raises [DoesNotExist] and writes nothing. *)
Theorem save_stores_and_is_idempotent cat w :
  (forall info,
     cat_info cat (item (this w)) = Some info ->
     exists w1,
       save cat w = (Ok tt, w1)
       /\ rows w1 !! pk (this w) = Some (this w1)
       /\ (forall k, k <> pk (this w) -> rows w1 !! k = rows w !! k)
       /\ (this w1 = this w
           \/ (is_setup (this w) = Some false /\ this w1 = set_is_setup None (this w)))
       /\ save cat w1 = (Ok tt, w1))
  /\ (cat_info cat (item (this w)) = None -> save cat w = (Err DoesNotExist, w)).
Proof.
  split.
  - intros info Hinfo. rewrite save_eq, Hinfo. eexists. split; [reflexivity|].
    assert (Hpk : pk (normalized cat info (this w)) = pk (this w))
      by (unfold normalized; now destruct (negb _ && _)).
    assert (Hit : item (normalized cat info (this w)) = item (this w))
      by (unfold normalized; now destruct (negb _ && _)).
    unfold saved. cbn [rows this with_rows with_this]. rewrite Hpk.
    split; [apply lookup_insert_eq|].
    split; [intros k Hk; now apply lookup_insert_ne|].
    split.
    + unfold normalized.
      destruct (negb _ && bool_decide (is_setup (this w) = Some false)) eqn:Hc;
        [right | now left].
      apply andb_prop in Hc as [_ Hc]. apply bool_decide_eq_true in Hc. now split.
    + apply (save_stored cat info); cbn [rows this with_rows with_this].
      * now rewrite Hit.
      * rewrite Hpk. apply lookup_insert_eq.
      * apply normalized_idem.
  - intros Hnone. now rewrite save_eq, Hnone.
Qed.

Lemma save_stores_and_is_idempotent_witness :
  exists w1,
    save sample_catalog (sample_world 11 (Some false) 0) = (Ok tt, w1)
    /\ is_setup (this w1) = None
    /\ save sample_catalog w1 = (Ok tt, w1).
Proof.
  destruct (proj1 (save_stores_and_is_idempotent sample_catalog
                     (sample_world 11 (Some false) 0))
              {| editor_type := Some GENERIC |} eq_refl)
    as (w1 & Hsave & _ & _ & Hthis & Hagain).
  exists w1. split; [exact Hsave|]. split; [|exact Hagain].
  injection Hsave as <-. reflexivity.
Defined.

(** X14: [teardown] gives the setup cost back once.  On a set-up module
    whose setup cost can be read, it returns, every inventory quantity grows
    by what the cost list takes of it (so only stacks of the owner grow), the
    module comes out not set up and stored, and a second teardown is a no-op.
    On a module that is not set up it does nothing; and when the cost cannot
    be read (no catalog entry, or a trade module without its trade settings
    row) it raises and changes nothing. *)
Theorem teardown_refunds_once cat w :
  (forall info costs,
     cat_info cat (item (this w)) = Some info ->
     is_setup (this w) = Some true ->
     setup_costs cat w = Ok costs ->
     exists w1,
       teardown cat w = (Ok tt, w1)
       /\ (forall u i,
             qty_of (inventory w1) u i
             = qty_of (inventory w) u i + spent (owner (this w)) costs u i)
       /\ truthy (is_setup (this w1)) = false
       /\ rows w1 !! pk (this w) = Some (this w1)
       /\ teardown cat w1 = (Ok tt, w1))
  /\ (is_setup (this w) <> Some true -> teardown cat w = (Ok tt, w))
  /\ (forall e,
        is_setup (this w) = Some true ->
        setup_costs cat w = Err e ->
        teardown cat w = (Err e, w)).
Proof.
  split; [|split].
  - intros info costs Hinfo Hup Hcosts.
    rewrite teardown_eq, Hup, Hinfo, Hcosts. cbn [truthy negb].
    eexists. split; [reflexivity|].
    unfold saved. cbn [inventory this rows with_rows with_this with_inventory].
    split; [intros u i; apply refund_spent|].
    assert (Hstate : truthy (is_setup (normalized cat info
                                         (set_is_setup (Some false) (this w)))) = false).
    { unfold normalized. now destruct (negb _ && _). }
    assert (Hpk : pk (normalized cat info (set_is_setup (Some false) (this w)))
                  = pk (this w))
      by (unfold normalized; now destruct (negb _ && _)).
    split; [exact Hstate|]. split; [rewrite Hpk; apply lookup_insert_eq|].
    rewrite teardown_eq. cbn [this with_rows with_this]. now rewrite Hstate.
  - intros Hnot. rewrite teardown_eq.
    destruct (is_setup (this w)) as [[|]|]; [contradiction | reflexivity | reflexivity].
  - intros e Hup Hcosts. rewrite teardown_eq, Hup. cbn [truthy negb].
    unfold setup_costs in Hcosts.
    destruct (cat_info cat (item (this w))) as [info|] eqn:Hinfo.
    + unfold setup_costs. now rewrite Hinfo, Hcosts.
    + now injection Hcosts as <-.
Qed.

Lemma teardown_refunds_once_witness :
  exists w1,
    teardown sample_catalog (sample_world 12 (Some true) 0) = (Ok tt, w1)
    /\ qty_of (inventory w1) 100 7 = 5
    /\ teardown sample_catalog w1 = (Ok tt, w1).
Proof.
  destruct (proj1 (teardown_refunds_once sample_catalog (sample_world 12 (Some true) 0))
              {| editor_type := Some TRADE |} [ {| cost_item := 7; cost_qty := 2 |} ]
              eq_refl eq_refl eq_refl)
    as (w1 & Htd & Hq & _ & _ & Hagain).
  exists w1. split; [exact Htd|]. split; [now rewrite Hq | exact Hagain].
Defined.

(** ** More on the arcade prize selector *)

Lemma cumulative_take_all l : cumulative (take (length l) l) = cumulative l.
Proof. now rewrite firstn_all. Qed.

Lemma walk_prizes_positive user chance l : forall sum w p w',
  sum <= chance ->
  walk_prizes user chance sum l w = (Ok p, w') ->
  0 < success_rate p.
Proof.
  induction l as [|q l IH]; intros sum w p w' Hsum; cbn [walk_prizes].
  - discriminate.
  - destruct (Z.ltb_spec chance (sum + success_rate q)) as [Hlt|Hge].
    + unfold bind, add_inv_item, modify, ret. intros [= <- _]. lia.
    + apply IH. exact Hge.
Qed.

(** X15: a prize table whose success rates add up to at least 100 always
    pays: whatever the draw, [select_arcade_prize] returns a prize of the
    table.  When no running total of the table reaches 100, the draw 99
    raises. *)
Theorem select_arcade_prize_total cat user w :
  (100 <= cumulative (guest_yields cat (pk (this w))) ->
   exists p w',
     select_arcade_prize cat user w = (Ok p, w')
     /\ p ∈ guest_yields cat (pk (this w)))
  /\ (none_exceeding 99 (guest_yields cat (pk (this w))) ->
      next_chance w = 99 ->
      is_ok (fst (select_arcade_prize cat user w)) = false).
Proof.
  rewrite select_arcade_prize_unfold.
  pose proof (Z.mod_pos_bound (rand w (draws w)) 100 ltac:(lia)) as Hchance.
  fold (next_chance w) in Hchance.
  split.
  - intros Htotal.
    destruct (prize_table_cases (next_chance w) (guest_yields cat (pk (this w))) 0)
      as [(pre & p & post & Heq & Hpre & Hp)|Hnone].
    + exists p. eexists. split.
      * rewrite Heq. apply walk_prizes_win; assumption.
      * rewrite Heq. apply elem_of_app. right. now left.
    + exfalso. destruct (guest_yields cat (pk (this w))) as [|q l] eqn:Hl.
      * cbn in Htotal. lia.
      * specialize (Hnone (length l) ltac:(cbn; lia)).
        change (S (length l)) with (length (q :: l)) in Hnone.
        rewrite cumulative_take_all in Hnone. lia.
  - intros Hnone Hdraw. rewrite walk_prizes_none; [reflexivity|].
    intros k Hk. rewrite Hdraw. specialize (Hnone k Hk). lia.
Qed.

Lemma select_arcade_prize_total_witness :
  exists p w',
    select_arcade_prize (arcade_catalog [30; 70]) 7 (arcade_world 57) = (Ok p, w').
Proof.
  destruct (proj1 (select_arcade_prize_total (arcade_catalog [30; 70]) 7 (arcade_world 57)))
    as (p & w' & H & _); [cbn; lia|].
  now exists p, w'.
Defined.

(** X16: a prize whose success rate is zero or negative is never selected:
    every prize that [select_arcade_prize] returns has a positive success
    rate. *)
Theorem select_arcade_prize_positive_rate cat user w p w' :
  select_arcade_prize cat user w = (Ok p, w') ->
  0 < success_rate p.
Proof.
  rewrite select_arcade_prize_unfold.
  pose proof (Z.mod_pos_bound (rand w (draws w)) 100 ltac:(lia)) as Hchance.
  apply walk_prizes_positive. unfold next_chance. lia.
Qed.

Lemma select_arcade_prize_positive_rate_witness :
  0 < success_rate {| prize_item := 3; prize_qty := 1; success_rate := 70 |}.
Proof.
  apply (select_arcade_prize_positive_rate (arcade_catalog [30; 0; 70]) 7 (arcade_world 30)
           _ (credited 7 3 1 (with_draws 1 (arcade_world 30)))).
  reflexivity.
Defined.

Lemma harvest_credits_owner_witness :
  exists w',
    harvest orchard_catalog (orchard_world 7) = (Ok tt, w')
    /\ qty_of (inventory w') 100 50 = 3
    /\ is_setup (this w') = None.
Proof.
  destruct (harvest_credits_owner orchard_catalog (orchard_world 7)
              {| editor_type := Some GENERIC |}
              {| yield_item_id := 50; max_yield := 10; yield_per_day := 2;
                 clicks_per_yield := 3 |})
    as (w' & Hh & Hq & Hs & _); [reflexivity | reflexivity | reflexivity | cbn; lia |].
  exists w'. split; [exact Hh|]. split; [now rewrite Hq | exact Hs].
Defined.

Lemma harvest_carries_remainders_witness :
  clicks_since_last_harvest (this (snd (harvest orchard_catalog (orchard_world 7)))) = 1
  /\ last_harvest_time (this (snd (harvest orchard_catalog (orchard_world 7))))
     = 43200000000.
Proof.
  destruct (harvest_carries_remainders orchard_catalog (orchard_world 7)
              {| editor_type := Some GENERIC |}
              {| yield_item_id := 50; max_yield := 10; yield_per_day := 2;
                 clicks_per_yield := 3 |})
    as (Hc & _ & _ & Ht & _); [reflexivity | reflexivity | reflexivity | cbn; lia | cbn; lia |].
  split; [now rewrite Hc | now rewrite Ht].
Defined.

Lemma harvest_twice_credits_once_witness :
  exists w1 w2,
    harvest orchard_catalog (orchard_world 7) = (Ok tt, w1)
    /\ harvest orchard_catalog w1 = (Ok tt, w2)
    /\ qty_of (inventory w2) 100 50 = qty_of (inventory w1) 100 50.
Proof.
  destruct (harvest_twice_credits_once orchard_catalog (orchard_world 7)
              {| editor_type := Some GENERIC |}
              {| yield_item_id := 50; max_yield := 10; yield_per_day := 2;
                 clicks_per_yield := 3 |})
    as (w1 & w2 & H1 & H2 & Hq);
    [reflexivity | reflexivity | reflexivity | cbn; lia | cbn; lia | cbn; lia | reflexivity |].
  exists w1, w2. split; [exact H1|]. split; [exact H2 | apply Hq].
Defined.

Lemma preview_agrees_with_harvest_witness :
  exists qty, fst (calc_yield_qty orchard_catalog (orchard_world 7)) = Ok qty
              /\ qty_of (inventory (snd (harvest orchard_catalog (orchard_world 7)))) 100 50
                 = 0 + qty.
Proof.
  destruct (preview_agrees_with_harvest orchard_catalog (orchard_world 7)
              (snd (harvest orchard_catalog (orchard_world 7))) eq_refl)
    as (_ & _ & qty & yi & Hyi & Hq & Hinv).
  injection Hyi as <-. exists qty. split; [exact Hq | exact Hinv].
Defined.

Lemma preview_never_decreases_witness :
  exists q q',
    fst (calc_yield_qty orchard_catalog (orchard_world 2)) = Ok q
    /\ fst (calc_yield_qty orchard_catalog (orchard_world 7)) = Ok q'
    /\ q <= q'.
Proof.
  apply (preview_never_decreases orchard_catalog (orchard_world 2) (orchard_world 7)
           {| editor_type := Some GENERIC |}
           {| yield_item_id := 50; max_yield := 10; yield_per_day := 2;
              clicks_per_yield := 3 |});
    try reflexivity; cbn; lia.
Defined.

(** ** The admin inlines *)

Lemma get_settings_inlines_eq cat w :
  Admin.get_settings_inlines cat w
  = match cat_info cat (item (this w)) with
    | None => (Err DoesNotExist, w)
    | Some info =>
        let classes := Admin.classes_of (editor_type info) in
        (Ok (if bool_decide (classes = [ModuleSaveConcertArcade])
             then [ModuleSaveConcertArcade; ModuleSaveSoundtrack] else classes), w)
    end.
Proof.
  unfold Admin.get_settings_inlines, get_settings_classes, bind, get_info.
  destruct (cat_info cat (item (this w))) as [info|]; [|reflexivity].
  cbn zeta. destruct (editor_type info) as [t|]; cbn [Admin.classes_of]; unfold ret.
  - now destruct (bool_decide (module_settings_classes t = [ModuleSaveConcertArcade])).
  - now destruct (bool_decide ([] = [ModuleSaveConcertArcade])).
Qed.

(** X17: the inlines that the module admin offers for a module are exactly
    the settings classes of the module's editor type, in order, followed by
    the soundtrack editor for the three concert modules (Concert I, Concert
    II and Friendly Felix) and by nothing for every other module.  They are
    always among the registered ones, without repetition, and the
    soundtrack editor is offered for those three and for soundtrack modules
    only.  The world is not changed, and a module without catalog entry
    raises [DoesNotExist]. *)
Theorem settings_inlines_registered cat w :
  match cat_info cat (item (this w)) with
  | None => Admin.get_settings_inlines cat w = (Err DoesNotExist, w)
  | Some info =>
      exists l,
        Admin.get_settings_inlines cat w = (Ok l, w)
        /\ l = Admin.classes_of (editor_type info)
               ++ (if bool_decide
                        (editor_type info
                         ∈ [Some CONCERT_I_ARCADE; Some CONCERT_II_ARCADE;
                            Some FRIENDLY_FELIX_CONCERT])
                   then [ModuleSaveSoundtrack] else [])
        /\ Forall (fun c => c ∈ Admin.settings) l
        /\ NoDup l
        /\ (ModuleSaveSoundtrack ∈ l
            <-> editor_type info
                ∈ [Some CONCERT_I_ARCADE; Some CONCERT_II_ARCADE;
                   Some FRIENDLY_FELIX_CONCERT; Some SOUNDTRACK])
  end.
Proof.
  rewrite get_settings_inlines_eq.
  destruct (cat_info cat (item (this w))) as [info|]; [|reflexivity].
  cbn zeta.
  destruct (editor_type info) as [[]|]; cbn [Admin.classes_of module_settings_classes];
    (eexists; split; [reflexivity|]);
    (split; [vm_compute; reflexivity|]);
    (split; [apply (bool_decide_unpack _); vm_compute; exact I|]);
    (split; [apply (bool_decide_unpack _); vm_compute; exact I|]);
    apply (bool_decide_unpack _); vm_compute; exact I.
Qed.

Lemma editor_types_complete t : t ∈ Admin.editor_types.
Proof. destruct t; apply (bool_decide_unpack _); vm_compute; exact I. Qed.

(** X18: the inlines that the item admin offers are always among the
    registered ones, without repetition: the two blueprint classes for a
    blueprint, nothing for an item that is neither blueprint nor module.
    For a module the setup-cost inline is offered exactly when the
    registry gives the module's editor type no [ModuleSetupTrade] settings,
    so an item is never shown both kinds of setup cost; the execution-cost
    inline goes with the executable flag; and the arcade prize inline is
    offered only to editor types with an arcade settings class, to all of
    them but [FRIENDLY_FELIX_CONCERT]. *)
Theorem item_info_inlines_registered obj l :
  Admin.get_item_info_inlines obj = Ok l ->
  Forall (fun c => c ∈ Admin.item_info_inlines) l
  /\ NoDup l
  /\ (Admin.type obj = Admin.BLUEPRINT ->
      l = [Admin.BlueprintInfo; Admin.BlueprintRequirement])
  /\ (Admin.type obj <> Admin.BLUEPRINT -> Admin.type obj <> Admin.MODULE -> l = [])
  /\ (forall info,
        Admin.type obj = Admin.MODULE ->
        Admin.module_info obj = Some info ->
        (Admin.ModuleSetupCost ∈ l
         <-> ModuleSetupTrade ∉ Admin.classes_of (Admin.editor_type info))
        /\ (Admin.ModuleExecutionCost ∈ l <-> Admin.is_executable info = true)
        /\ (Admin.ArcadePrize ∈ l
            <-> Exists (fun c => c ∈ Admin.classes_of (Admin.editor_type info))
                       Admin.arcade_classes
                /\ Admin.editor_type info <> Some FRIENDLY_FELIX_CONCERT)).
Proof.
  unfold Admin.get_item_info_inlines.
  destruct obj as [ty mi]. cbn [Admin.type Admin.module_info].
  destruct ty as [| |n].
  - intros [= <-]. split; [apply (bool_decide_unpack _); vm_compute; exact I|].
    split; [apply (bool_decide_unpack _); vm_compute; exact I|].
    split; [reflexivity|]. split; [contradiction | discriminate].
  - destruct mi as [[ed ex]|]; [|discriminate].
    intros [= <-]. cbn [Admin.editor_type Admin.is_executable].
    split; [|split; [|split; [discriminate|split; [contradiction|]]]].
    + destruct ed as [[]|], ex; apply (bool_decide_unpack _); vm_compute; exact I.
    + destruct ed as [[]|], ex; apply (bool_decide_unpack _); vm_compute; exact I.
    + intros info _ [= <-]. cbn [Admin.editor_type Admin.is_executable].
      destruct ed as [[]|], ex;
        (split; [|split]); apply (bool_decide_unpack _); vm_compute; exact I.
  - intros [= <-]. split; [constructor|]. split; [constructor|].
    split; [discriminate|]. split; [reflexivity | discriminate].
Qed.

Lemma item_info_inlines_registered_witness :
  Admin.ModuleSetupCost
  ∈ [Admin.ModuleInfo; Admin.ModuleYieldInfo; Admin.ModuleSetupCost;
     Admin.ModuleExecutionCost; Admin.ArcadePrize].
Proof.
  apply (proj2 (proj1 (proj2 (proj2 (proj2 (proj2
           (item_info_inlines_registered
              {| Admin.type := Admin.MODULE;
                 Admin.module_info :=
                   Some {| Admin.editor_type := Some HOP_ARCADE;
                           Admin.is_executable := true |} |}
              _ eq_refl))))
           {| Admin.editor_type := Some HOP_ARCADE; Admin.is_executable := true |}
           eq_refl eq_refl))).
  apply (bool_decide_unpack _). vm_compute. exact I.
Defined.

(** ** The friend trigger migration *)

Section Migration.

Import Migration0024.

Lemma not_elem_of_below {A} (f : A -> Z) (l : list A) k :
  Forall (fun x => f x < k) l -> k ∉ map f l.
Proof.
  intros Hall Hin. apply list_elem_of_fmap in Hin as (x & -> & Hx).
  rewrite Forall_forall in Hall. specialize (Hall x Hx). lia.
Qed.

Lemma migrate_condition_done c s db :
  ahead db ->
  source c = Some s ->
  migrate_condition c db
  = Done {| conditions := conditions db;
            templates := templates db ++ new_templates (template_seq db) [c];
            template_seq := template_seq db + 2;
            triggers := triggers db ++ new_triggers (template_seq db) [c] |}.
Proof.
  intros [Hfresh Htr] Hs. unfold migrate_condition, create_template, create_trigger.
  rewrite Hs. cbn [templates triggers template_seq conditions id messagetemplate_ptr].
  rewrite bool_decide_eq_false_2 by (apply not_elem_of_below; exact Hfresh).
  cbn [templates triggers template_seq conditions id messagetemplate_ptr].
  rewrite bool_decide_eq_false_2 by (apply not_elem_of_below; exact Htr).
  cbn [templates triggers template_seq conditions id messagetemplate_ptr].
  rewrite bool_decide_eq_false_2.
  2: { apply not_elem_of_below. apply Forall_app. split.
       - eapply Forall_impl; [exact Hfresh|]. cbn. intros; lia.
       - repeat constructor. cbn. lia. }
  cbn [templates triggers template_seq conditions id messagetemplate_ptr].
  rewrite bool_decide_eq_false_2.
  2: { apply not_elem_of_below. apply Forall_app. split.
       - eapply Forall_impl; [exact Htr|]. cbn. intros; lia.
       - repeat constructor. cbn. lia. }
  cbn [new_templates new_triggers]. rewrite Hs. cbn [default].
  rewrite <- !app_assoc. cbn [app].
  replace (template_seq db + 1 + 1) with (template_seq db + 2) by lia.
  reflexivity.
Qed.

Lemma ahead_step c db :
  ahead db ->
  ahead {| conditions := conditions db;
           templates := templates db ++ new_templates (template_seq db) [c];
           template_seq := template_seq db + 2;
           triggers := triggers db ++ new_triggers (template_seq db) [c] |}.
Proof.
  intros [Hfresh Htr]. split; [unfold fresh|];
    cbn [templates triggers template_seq new_templates new_triggers];
    apply Forall_app; (split; [eapply Forall_impl; [eassumption|]; cbn; intros; lia|]);
    repeat constructor; cbn; lia.
Qed.

Lemma migrate_conditions_done cs : forall db,
  ahead db ->
  Forall (fun c => is_Some (source c)) cs ->
  migrate_conditions cs db
  = Done {| conditions := conditions db;
            templates := templates db ++ new_templates (template_seq db) cs;
            template_seq := template_seq db + 2 * Z.of_nat (length cs);
            triggers := triggers db ++ new_triggers (template_seq db) cs |}.
Proof.
  induction cs as [|c cs IH]; intros db Hahead Hsrc; cbn [migrate_conditions].
  - cbn. rewrite !app_nil_r, Z.add_0_r. now destruct db.
  - apply Forall_cons_1 in Hsrc as [[s Hs] Hsrc].
    rewrite (migrate_condition_done c s db Hahead Hs).
    rewrite IH; [|now apply ahead_step | exact Hsrc].
    cbn [conditions templates template_seq triggers new_templates new_triggers length].
    rewrite <- !app_assoc. cbn [app].
    f_equal. f_equal. lia.
Qed.

Lemma new_keys k cs :
  map id (new_templates k cs) = seqZ k (2 * Z.of_nat (length cs))
  /\ map messagetemplate_ptr (new_triggers k cs) = seqZ k (2 * Z.of_nat (length cs)).
Proof.
  revert k. induction cs as [|c cs IH]; intros k; [now split|].
  cbn [new_templates new_triggers map length id messagetemplate_ptr].
  destruct (IH (k + 2)) as [-> ->].
  replace (2 * Z.of_nat (S (length cs))) with (Z.succ (Z.succ (2 * Z.of_nat (length cs))))
    by lia.
  rewrite (seqZ_cons k) by lia. rewrite Z.pred_succ.
  rewrite (seqZ_cons (Z.succ k)) by lia. rewrite Z.pred_succ.
  replace (Z.succ (Z.succ k)) with (k + 2) by lia.
  replace (Z.succ k) with (k + 1) by lia. now split.
Qed.

Lemma new_templates_length k cs : length (new_templates k cs) = (2 * length cs)%nat.
Proof. revert k. induction cs as [|c cs IH]; intros k; cbn; [|rewrite IH]; lia. Qed.

Lemma new_triggers_length k cs : length (new_triggers k cs) = (2 * length cs)%nat.
Proof. revert k. induction cs as [|c cs IH]; intros k; cbn; [|rewrite IH]; lia. Qed.

Lemma operations_done db :
  fresh db ->
  Forall (fun c => is_Some (source c)) (conditions db) ->
  operations db
  = Done {| conditions := [];
            templates := templates db ++ new_templates (template_seq db) (conditions db);
            template_seq := template_seq db + 2 * Z.of_nat (length (conditions db));
            triggers := new_triggers (template_seq db) (conditions db) |}.
Proof.
  intros Hfresh Hsrc. unfold operations, migrate_NFC_to_NFT.
  cbn [conditions]. rewrite migrate_conditions_done; [reflexivity | | exact Hsrc].
  split; [exact Hfresh | constructor].
Qed.

(** X19: when every condition has its source row and the key sequence of
    the message templates is ahead of the keys in use, the migration goes
    through.  It leaves no condition, keeps every message template that was
    there, in place and unchanged, adds two templates and two triggers per
    condition, gives the triggers pairwise different keys, each the key of
    one of the added templates, and leaves the key sequence ahead. *)
Theorem migration_writes_two_rows_per_condition db :
  fresh db ->
  Forall (fun c => is_Some (source c)) (conditions db) ->
  exists db' added,
    operations db = Done db'
    /\ conditions db' = []
    /\ templates db' = templates db ++ added
    /\ length added = (2 * length (conditions db))%nat
    /\ length (triggers db') = (2 * length (conditions db))%nat
    /\ NoDup (map messagetemplate_ptr (triggers db'))
    /\ map messagetemplate_ptr (triggers db') = map id added
    /\ fresh db'.
Proof.
  intros Hfresh Hsrc. rewrite (operations_done db Hfresh Hsrc).
  eexists. exists (new_templates (template_seq db) (conditions db)).
  split; [reflexivity|]. cbn [conditions templates triggers template_seq].
  destruct (new_keys (template_seq db) (conditions db)) as [Hids Hptrs].
  split; [reflexivity|]. split; [reflexivity|].
  split; [apply new_templates_length|]. split; [apply new_triggers_length|].
  split; [rewrite Hptrs; apply NoDup_seqZ|].
  split; [now rewrite Hptrs, Hids|].
  unfold fresh. cbn [templates template_seq]. apply Forall_app. split.
  - eapply Forall_impl; [exact Hfresh|]. cbn. intros; lia.
  - apply Forall_forall. intros t Ht.
    assert (Hin : id t ∈ map id (new_templates (template_seq db) (conditions db)))
      by (apply (list_elem_of_fmap_2 id); exact Ht).
    rewrite Hids in Hin. apply elem_of_seqZ in Hin. lia.
Qed.

Lemma migration_writes_two_rows_per_condition_witness :
  exists db', operations sample = Done db'
              /\ length (triggers db') = 4%nat
              /\ length (templates db') = 5%nat.
Proof.
  destruct (migration_writes_two_rows_per_condition sample)
    as (db' & added & Hdone & _ & Ht & Hla & Hlt & _).
  - unfold fresh. repeat constructor.
  - repeat constructor; now eexists.
  - exists db'. split; [exact Hdone|]. split; [exact Hlt|].
    rewrite Ht, length_app, Hla. reflexivity.
Defined.

Lemma template_of_found ts t :
  NoDup (map id ts) -> t ∈ ts -> template_of ts (id t) = Some t.
Proof.
  unfold template_of. induction ts as [|a ts IH]; intros Hnd Hin.
  - now apply not_elem_of_nil in Hin.
  - cbn [map] in Hnd. apply NoDup_cons in Hnd as [Ha Hnd].
    rewrite filter_cons. case_decide as Heq.
    + cbn. f_equal. apply elem_of_cons in Hin as [->|Hin]; [reflexivity|].
      exfalso. apply Ha. rewrite Heq. now apply list_elem_of_fmap_2.
    + apply elem_of_cons in Hin as [->|Hin]; [contradiction|]. now apply IH.
Qed.

Lemma recover_new ts cs : forall k,
  NoDup (map id ts) ->
  (forall t, t ∈ new_templates k cs -> t ∈ ts) ->
  Forall (fun c => is_Some (source c)) cs ->
  recover ts (new_triggers k cs) = cs.
Proof.
  induction cs as [|c cs IH]; intros k Hnd Hsub Hsrc; [reflexivity|].
  apply Forall_cons_1 in Hsrc as [[s Hs] Hsrc].
  cbn [new_triggers recover messagetemplate_ptr required_item].
  cbn [new_templates] in Hsub.
  set (t1 := {| id := k; mt_networker := networker c; mt_body := success_body c;
                mt_source := default EmptyString (source c) |}) in *.
  set (t2 := {| id := k + 1; mt_networker := networker c; mt_body := failure_body c;
                mt_source := default EmptyString (source c) |}) in *.
  change (template_of ts k) with (template_of ts (id t1)).
  change (template_of ts (k + 1)) with (template_of ts (id t2)).
  rewrite (template_of_found ts t1 Hnd) by (apply Hsub; now left).
  rewrite (template_of_found ts t2 Hnd) by (apply Hsub; right; now left).
  rewrite IH; [|exact Hnd | intros t Ht; apply Hsub; right; now right | exact Hsrc].
  f_equal. destruct c as [n co sb fb so]. cbn in *. now rewrite Hs.
Qed.

(** X20: the migration loses nothing it reads.  From the templates and
    triggers it leaves behind, the conditions can be read back: pairing the
    triggers two by two and following each to its template gives the list of
    conditions the migration started from, field by field (networker, item,
    both bodies and source text), in the same order. *)
Theorem migration_is_lossless db db' :
  fresh db ->
  NoDup (map id (templates db)) ->
  Forall (fun c => is_Some (source c)) (conditions db) ->
  operations db = Done db' ->
  recover (templates db') (triggers db') = conditions db.
Proof.
  intros Hfresh Hnd Hsrc. rewrite (operations_done db Hfresh Hsrc). intros [= <-].
  cbn [templates triggers]. apply recover_new; [| |exact Hsrc].
  - rewrite map_app. apply NoDup_app. split; [exact Hnd|]. split.
    + intros k Hold Hnew.
      rewrite (proj1 (new_keys _ _)) in Hnew. apply elem_of_seqZ in Hnew.
      apply list_elem_of_fmap in Hold as (t & -> & Ht).
      unfold fresh in Hfresh. rewrite Forall_forall in Hfresh.
      specialize (Hfresh t Ht). lia.
    + rewrite (proj1 (new_keys _ _)). apply NoDup_seqZ.
  - intros t Ht. apply elem_of_app. now right.
Qed.

Lemma migration_is_lossless_witness :
  exists db', operations sample = Done db'
              /\ recover (templates db') (triggers db') = conditions sample.
Proof.
  assert (Hf : fresh sample) by (unfold fresh; repeat constructor).
  assert (Hs : Forall (fun c => is_Some (source c)) (conditions sample))
    by (repeat constructor; now eexists).
  eexists. split; [exact (operations_done sample Hf Hs)|].
  apply (migration_is_lossless sample); [exact Hf | | exact Hs |].
  - apply NoDup_singleton.
  - exact (operations_done sample Hf Hs).
Defined.




End Migration.
